(** * Interactive line chart: the data-transformation and view-window core

    A shallow embedding of [src/utils/dataProcessor.ts] (rates, day and week
    series, variation keys) and of the computations of
    [src/components/Chart/Chart.tsx] that depend on it: the memoised
    [visibleDataRange], [yAxisDomain] and [displayData], the handlers of
    the zoom and pan controls, the variation select and the star of the
    tooltip; together with the properties the specification states about
    them and further properties read off the code.  The specification
    calls [computeRate], [process], [computeVisibleRange] and
    [computeDomain] what the code computes in [processData],
    [visibleDataRange] and [yAxisDomain].

    ** Numbers

    A JavaScript [number] is modelled by [num]: [NaN], the two infinities,
    or a finite value carried as an exact rational.  The special values
    propagate as IEEE-754 prescribes, and a finite result whose magnitude
    exceeds [Number.MAX_VALUE] overflows to an infinity.  What the model
    abstracts from is the rounding of finite results to 53 bits, gradual
    underflow and the sign of zero: a finite result is the exact rational.
    Where a property turns on that rounding (a value rounded to two
    decimal digits), it is stated with a bound wide enough for the
    rounded result as well.

    ** Objects

    A [ProcessedDataPoint] is a JavaScript object indexed by strings; it is
    a [gmap string value], with the [date] entry living in the same name
    space as the variation keys, as in the source.  A number assigned
    under the key "__proto__" is not stored ([setField]).

    ** The engine

    Where the source lets a string stand for a number, or prints a number
    that is not an integer, the result is the engine's: the two conversions
    are the fields of the class [Engine], and every property holds for
    every engine. *)

From Stdlib Require Import QArith Qabs Qround Qcanon Lqa Lia ZArith.
From Stdlib Require Import Floats Ascii.
From stdpp Require Import gmap strings list pretty.
From Equations Require Import Equations.

Open Scope Q_scope.

(** ** JavaScript numbers *)

Inductive num : Type :=
  | NaN
  | PInf
  | NInf
  | Fin (q : Q).

(** [Number.MAX_VALUE], (2^53 - 1) * 2^971. *)
Definition MAX_VALUE : Q := inject_Z ((2 ^ 53 - 1) * 2 ^ 971).

(** The result of an arithmetic operation whose exact value is [q]. *)
Definition rnd (q : Q) : num :=
  if Qle_bool (Qabs q) MAX_VALUE then Fin (Qred q)
  else if Qle_bool 0 q then PInf else NInf.

(** The [length] of an array: an integer below 2^32, hence exact. *)
Definition ofNat (n : nat) : num := Fin (inject_Z (Z.of_nat n)).

Definition isNaN (x : num) : bool :=
  match x with NaN => true | _ => false end.

Definition isFinite (x : num) : bool :=
  match x with Fin _ => true | _ => false end.

Definition js_neg (x : num) : num :=
  match x with
  | NaN => NaN
  | PInf => NInf
  | NInf => PInf
  | Fin q => Fin (Qred (- q))
  end.

Definition js_add (x y : num) : num :=
  match x, y with
  | NaN, _ | _, NaN => NaN
  | PInf, NInf | NInf, PInf => NaN
  | PInf, _ | _, PInf => PInf
  | NInf, _ | _, NInf => NInf
  | Fin a, Fin b => rnd (a + b)
  end.

Definition js_sub (x y : num) : num := js_add x (js_neg y).

(** An infinity times (or divided by) a finite value of the given sign;
    [pos] tells whether the infinity is the positive one. *)
Definition inf_signed (pos : bool) (c : comparison) : num :=
  match c with
  | Eq => NaN
  | Gt => if pos then PInf else NInf
  | Lt => if pos then NInf else PInf
  end.

Definition js_mul (x y : num) : num :=
  match x, y with
  | NaN, _ | _, NaN => NaN
  | Fin a, Fin b => rnd (a * b)
  | Fin a, PInf | PInf, Fin a => inf_signed true (a ?= 0)
  | Fin a, NInf | NInf, Fin a => inf_signed false (a ?= 0)
  | PInf, PInf | NInf, NInf => PInf
  | PInf, NInf | NInf, PInf => NInf
  end.

Definition js_div (x y : num) : num :=
  match x, y with
  | NaN, _ | _, NaN => NaN
  | Fin a, Fin b =>
      if Qeq_bool b 0 then
        match a ?= 0 with Eq => NaN | Gt => PInf | Lt => NInf end
      else rnd (a / b)
  | Fin _, PInf | Fin _, NInf => Fin 0
  | PInf, Fin b => if Qle_bool 0 b then PInf else NInf
  | NInf, Fin b => if Qle_bool 0 b then NInf else PInf
  | _, _ => NaN
  end.

(** [x < y]; any comparison with [NaN] is false. *)
Definition js_lt (x y : num) : bool :=
  match x, y with
  | NaN, _ | _, NaN => false
  | _, NInf => false
  | NInf, _ => true
  | PInf, _ => false
  | _, PInf => true
  | Fin a, Fin b => negb (Qle_bool b a)
  end.

(** [x <= y]. *)
Definition js_le (x y : num) : bool :=
  match x, y with
  | NaN, _ | _, NaN => false
  | NInf, _ => true
  | _, NInf => false
  | _, PInf => true
  | PInf, _ => false
  | Fin a, Fin b => Qle_bool a b
  end.

(** [x === y] on numbers. *)
Definition js_eq (x y : num) : bool :=
  match x, y with
  | PInf, PInf | NInf, NInf => true
  | Fin a, Fin b => Qeq_bool a b
  | _, _ => false
  end.

Definition js_gt (x y : num) : bool := js_lt y x.

Definition Math_max (x y : num) : num :=
  match x, y with
  | NaN, _ | _, NaN => NaN
  | _, _ => if js_lt x y then y else x
  end.

Definition Math_min (x y : num) : num :=
  match x, y with
  | NaN, _ | _, NaN => NaN
  | _, _ => if js_lt y x then y else x
  end.

(** [Math.max(...xs)] and [Math.min(...xs)] on a spread array. *)
Definition Math_max_spread (xs : list num) : num := foldl Math_max NInf xs.
Definition Math_min_spread (xs : list num) : num := foldl Math_min PInf xs.

Definition Math_floor (x : num) : num :=
  match x with
  | Fin q => Fin (inject_Z (Qfloor q))
  | _ => x
  end.

(** [Number(x.toFixed(2))].  [toFixed] prints NaN and the infinities by
    name and a magnitude of 10^21 or more through [ToString]; [Number] reads
    each of those back as the same number.  Below 10^21 the digits printed
    are those of the integer [n] for which [n / 100] is closest to the
    magnitude of [x], the larger [n] on a tie, after the sign. *)
Definition Number_toFixed2 (x : num) : num :=
  match x with
  | Fin q =>
      if Qle_bool 1e21 (Qabs q) then x
      else
        let n := Qfloor (Qabs q * 100 + (1 # 2)) in
        Fin (Qred (if Qle_bool 0 q then n # 100 else - n # 100))
  | _ => x
  end.

(** A numeric operand of [||]: [0] and [NaN] are falsy. *)
Definition truthy (x : num) : bool :=
  match x with
  | NaN => false
  | Fin q => negb (Qeq_bool q 0)
  | _ => true
  end.

(** ** JavaScript values, objects and arrays *)

(** What a field of a JavaScript object can hold here. *)
Inductive value : Type :=
  | VUndefined
  | VStr (s : string)
  | VNum (n : num).

(** [{ date: string, [variationKey: string]: string | number }] *)
Abbreviation ProcessedDataPoint := (gmap string value).

(** [point[key]]: an absent property reads as [undefined]. *)
Definition get (point : ProcessedDataPoint) (key : string) : value :=
  match point !! key with
  | Some v => v
  | None => VUndefined
  end.

(** [object[key] = v], for [v] a number or a string.  The key "__proto__"
    is the accessor of [Object.prototype]: its setter ignores a value that
    is not an object, so the assignment creates no property. *)
Definition setField (key : string) (v : value) (object : ProcessedDataPoint)
  : ProcessedDataPoint :=
  if decide (key = "__proto__") then object else <[key := v]> object.

(** [Object.keys(point)].  The engine lists integer-like keys first; the
    order plays no role below, where every key is written once. *)
Definition Object_keys (point : ProcessedDataPoint) : list string :=
  (map_to_list point).*1.

(** [Array.prototype.slice]: an index argument is truncated to an integer
    (NaN counts as 0), a negative one counts from the end, and both are
    clamped to the array. *)
Definition sliceIndex (len : nat) (x : num) : nat :=
  match x with
  | NaN => 0%nat
  | PInf => len
  | NInf => 0%nat
  | Fin q =>
      let k := if Qle_bool 0 q then Qfloor q else Qceiling q in
      if (k <? 0)%Z then Z.to_nat (Z.max (Z.of_nat len + k) 0)
      else Z.to_nat (Z.min k (Z.of_nat len))
  end.

Definition Array_slice {A : Type} (l : list A) (start final : num) : list A :=
  let k := sliceIndex (length l) start in
  let final := sliceIndex (length l) final in
  take (final - k) (drop k l).

(** Two conversions of the JavaScript engine are left open: the number a
    string denotes ([StringToNumber], applied by [isNaN], [isFinite],
    [Math.min] and [/] to a string operand), and the digits printed for a
    finite number that is not an integer of magnitude at most 2^53 (such an
    integer is printed in full; for other numbers the engine prints the
    shortest digits that read back as the same number). *)
Class Engine := {
  StringToNumber : string → num;
  fractionToString : Q → string
}.

Section Program.

Context {engine : Engine}.

Definition ToNumber (v : value) : num :=
  match v with
  | VUndefined => NaN
  | VStr s => StringToNumber s
  | VNum n => n
  end.

(** [Number.prototype.toString], radix 10. *)
Definition Number_toString (x : num) : string :=
  match x with
  | NaN => "NaN"
  | PInf => "Infinity"
  | NInf => "-Infinity"
  | Fin q =>
      if Qeq_bool (inject_Z (Qfloor q)) q
         && Qle_bool (Qabs q) (inject_Z (2 ^ 53))
      then pretty (Qfloor q)
      else fractionToString q
  end.

Definition ToString (v : value) : string :=
  match v with
  | VUndefined => "undefined"
  | VStr s => s
  | VNum n => Number_toString n
  end.

(** The binary [+]: concatenation as soon as one operand is a string. *)
Definition js_plus (a b : value) : value :=
  match a, b with
  | VStr s, _ => VStr (s +:+ ToString b)
  | _, VStr s => VStr (ToString a +:+ s)
  | _, _ => VNum (js_add (ToNumber a) (ToNumber b))
  end.

(** ** types.ts *)

Record Variation := { id : option num; name : string }.

Record DataPoint := {
  date : string;
  visits : gmap string num;
  conversions : gmap string num
}.

Record ChartData := { variations : list Variation; data : list DataPoint }.

Inductive TimeRange : Type := day | week.
Inductive LineStyle : Type := line | smooth | area.

(** ** dataProcessor.ts *)

Definition calculateConversionRate (conversions visits : num) : num :=
  if js_eq visits (Fin 0) then Fin 0
  else js_mul (js_div conversions visits) (Fin 100).

(** The value [processData] stores for one variation of one day, from the
    two counts it has looked up (the body of its inner callback). *)
Definition computeRate (conversions visits : num) : num :=
  let conversionRate := calculateConversionRate conversions visits in
  let value := Number_toFixed2 conversionRate in
  if isNaN value || negb (isFinite value) then Fin 0 else value.

(** [counts[key] || 0].  Where [counts] has no such key the source may
    read a property inherited from [Object.prototype], which is no number:
    the rate is then NaN and is stored as 0, as it is here. *)
Definition orZero (count : option num) : num :=
  match count with
  | Some x => if truthy x then x else Fin 0
  | None => Fin 0
  end.

(** The loop [for (let i = 0; i < data.length; i += 7)] of
    [aggregateByWeek], from index [i] on. *)
Equations weekGroupsFrom {A : Type} (data : list A) (i : nat)
  : list (list A) by wf (length data - i)%nat lt :=
  weekGroupsFrom data i with decide (i < length data)%nat := {
    | left _ =>
        let week := take 7 (drop i data) in
        (if (0 <? length week)%nat then [week] else [])
          ++ weekGroupsFrom data (i + 7)
    | right _ => []
  }.
Next Obligation. lia. Qed.

(** The weekly value of one key: lines 63-70 of [aggregateByWeek]. *)
Definition weekValue (week : list ProcessedDataPoint) (key : string) : num :=
  let values :=
    filter (λ val, negb (isNaN (ToNumber val))
                   && negb (match val with VUndefined => true | _ => false end)
                   && isFinite (ToNumber val) = true)
           (map (λ point, get point key) week) in
  let average :=
    if (0 <? length values)%nat
    then js_div (ToNumber (foldl js_plus (VNum (Fin 0)) values))
                (ofNat (length values))
    else Fin 0 in
  let value := Number_toFixed2 average in
  if isNaN value || negb (isFinite value) then Fin 0 else value.

(** The point built for one non-empty [week], whose first element is
    [week0]. *)
Definition weekPoint (week0 : ProcessedDataPoint)
    (week : list ProcessedDataPoint) : ProcessedDataPoint :=
  let weekPoint : ProcessedDataPoint :=
    {[ "date" :=
         if (length week =? 1)%nat then get week0 "date"
         else VStr (ToString (get week0 "date") +:+ " - "
                    +:+ ToString (get (default week0 (last week)) "date")) ]} in
  let variationKeys := filter (λ key, key ≠ "date") (Object_keys week0) in
  foldl (λ weekPoint key, setField key (VNum (weekValue week key)) weekPoint)
        weekPoint variationKeys.

Definition aggregateByWeek (data : list ProcessedDataPoint)
  : list ProcessedDataPoint :=
  let weekGroups := weekGroupsFrom data 0 in
  flat_map (λ week,
              match week with
              | [] => []
              | week0 :: _ => [weekPoint week0 week]
              end) weekGroups.

(** The point [processData] builds for one day. *)
Definition dayPoint (selectedVariations : list string) (dataPoint : DataPoint)
  : ProcessedDataPoint :=
  foldl (λ (point : ProcessedDataPoint) variationKey,
           let visits := orZero (visits dataPoint !! variationKey) in
           let conversions := orZero (conversions dataPoint !! variationKey) in
           setField variationKey (VNum (computeRate conversions visits))
                    point)
        {[ "date" := VStr (date dataPoint) ]} selectedVariations.

Definition processData (chartData : ChartData)
    (selectedVariations : list string) (timeRange : TimeRange)
  : list ProcessedDataPoint :=
  let processed := map (dayPoint selectedVariations) (data chartData) in
  match timeRange with
  | week => aggregateByWeek processed
  | day => processed
  end.

(** [variation.id?.toString() || '0']: the empty string is falsy. *)
Definition getVariationKey (variation : Variation) : string :=
  match id variation with
  | None => "0"
  | Some n => let s := Number_toString n in if decide (s = "") then "0" else s
  end.

Definition getVariationName (variation : Variation) : string :=
  name variation.

(** ** Chart.tsx *)

Definition visibleDataRange (zoomLevel panOffset : num) (totalPoints : nat)
  : option (num * num) :=
  if js_le zoomLevel (Fin 1) then None
  else
    let totalPoints := ofNat totalPoints in
    let visiblePoints := Math_floor (js_div totalPoints zoomLevel) in
    let maxOffset := Math_max (Fin 0) (js_sub totalPoints visiblePoints) in
    let clampedOffset := Math_max (Fin 0) (Math_min panOffset maxOffset) in
    let startIndex := Math_floor clampedOffset in
    let endIndex :=
      Math_min (js_sub (js_add startIndex visiblePoints) (Fin 1))
               (js_sub totalPoints (Fin 1)) in
    Some (startIndex, endIndex).

(** Lines 133-176 of [yAxisDomain]: the bounds once the smallest and the
    largest visible value are known. *)
Definition paddedDomain (min max : num) (lineStyle : LineStyle) : num * num :=
  let range := js_sub max min in
  let isSmoothMode :=
    match lineStyle with smooth => true | _ => false end in
  let '(paddingTop, paddingBottom) :=
    if js_gt range (Fin 0) then
      if isSmoothMode
      then (js_mul range (Fin 0.2), js_mul range (Fin 0.1))
      else (js_mul range (Fin 0.1), js_mul range (Fin 0.1))
    else if js_gt max (Fin 0) then
      if isSmoothMode
      then (js_mul max (Fin 0.2), js_mul max (Fin 0.1))
      else (js_mul max (Fin 0.1), js_mul max (Fin 0.1))
    else (Fin 1, Fin 1) in
  let paddingTop :=
    if js_lt paddingTop (Fin 1) then Fin 1 else paddingTop in
  let paddingBottom :=
    if js_lt paddingBottom (Fin 1) then Fin 1 else paddingBottom in
  let minDomain :=
    if isSmoothMode
    then Math_max (Fin (-5)) (js_sub (js_sub min paddingBottom) (Fin 5))
    else Math_max (Fin 0) (js_sub min paddingBottom) in
  let maxDomain := js_add max paddingTop in
  let finalMax :=
    if isNaN maxDomain || negb (isFinite maxDomain)
    then Math_max (js_mul max (Fin 1.2)) (Fin 100)
    else maxDomain in
  let finalMin :=
    if isNaN minDomain || negb (isFinite minDomain)
    then (if isSmoothMode then Fin (-5) else Fin 0)
    else minDomain in
  (finalMin, finalMax).

(** The values [yAxisDomain] collects from the points it uses. *)
Definition allValues (dataToUse : list ProcessedDataPoint)
    (selectedVariations : list string) : list value :=
  flat_map (λ point,
    flat_map (λ key,
      let value := get point key in
      if negb (isNaN (ToNumber value)) && isFinite (ToNumber value)
         && negb (match value with VUndefined => true | _ => false end)
      then [value] else [])
      selectedVariations)
    dataToUse.

(** The body of [yAxisDomain] once [dataToUse] is chosen: the bounds of
    the value axis for the visible points. *)
Definition computeDomain (dataToUse : list ProcessedDataPoint)
    (selectedVariations : list string) (lineStyle : LineStyle) : num * num :=
  let allValues := allValues dataToUse selectedVariations in
  if (length allValues =? 0)%nat then (Fin 0, Fin 100)
  else
    let min := Math_min_spread (map ToNumber allValues) in
    let max := Math_max_spread (map ToNumber allValues) in
    if isNaN min || isNaN max || negb (isFinite min) || negb (isFinite max)
    then (Fin 0, Fin 100)
    else paddedDomain min max lineStyle.

Definition yAxisDomain (processedData : list ProcessedDataPoint)
    (selectedVariations : list string)
    (visibleDataRange : option (num * num)) (lineStyle : LineStyle)
  : num * num :=
  let dataToUse :=
    match visibleDataRange with
    | Some (startIndex, endIndex) =>
        Array_slice processedData startIndex (js_add endIndex (Fin 1))
    | None => processedData
    end in
  computeDomain dataToUse selectedVariations lineStyle.

(** [x >= y]. *)
Definition js_ge (x y : num) : bool := js_le y x.

(** A value as a condition: [undefined], the empty string, 0 and NaN are
    falsy. *)
Definition truthyValue (v : value) : bool :=
  match v with
  | VUndefined => false
  | VStr s => bool_decide (s ≠ "")
  | VNum n => truthy n
  end.

(** The object [displayData] builds for one point: the date and, for every
    selected key, the number the point holds there, 0 unless it is a
    finite number. *)
Definition cleanPoint (selectedVariations : list string)
    (point : ProcessedDataPoint) : ProcessedDataPoint :=
  foldl (λ (cleanPoint : ProcessedDataPoint) key,
           let value := get point key in
           setField key
             (VNum (if isNaN (ToNumber value)
                       || negb (isFinite (ToNumber value))
                       || match value with
                          | VUndefined => true
                          | _ => false
                          end
                    then Fin 0 else ToNumber value))
             cleanPoint)
        {[ "date" := get point "date" ]} selectedVariations.

Definition displayData (processedData : list ProcessedDataPoint)
    (visibleDataRange : option (num * num))
    (selectedVariations : list string) : list ProcessedDataPoint :=
  let data :=
    match visibleDataRange with
    | Some (startIndex, endIndex) =>
        if js_ge startIndex (Fin 0)
           && js_lt endIndex (ofNat (length processedData))
        then Array_slice processedData startIndex (js_add endIndex (Fin 1))
        else processedData
    | None => processedData
    end in
  map (cleanPoint selectedVariations)
      (filter (λ point, truthyValue (get point "date") = true) data).

(** [CustomTooltip], as far as the star is concerned: [None] when nothing
    is rendered, and otherwise, for every entry of the payload (given by
    its value), whether it carries the star. *)
Definition CustomTooltip (active : bool) (payload : option (list num))
  : option (list bool) :=
  match payload with
  | Some payload =>
      if negb active || (length payload =? 0)%nat then None
      else
        let maxValue := Math_max_spread payload in
        Some (map (λ value, js_eq value maxValue && js_gt value (Fin 0))
                  payload)
  | None => None
  end.

(** The [value] of the variation select, and its [onChange]. *)
Definition variationSelectValue (data : ChartData)
    (selectedVariations : list string) : string :=
  if (length selectedVariations =? length (variations data))%nat then "all"
  else
    match selectedVariations with
    | key :: _ => if decide (key = "") then "all" else key
    | [] => "all"
    end.

Definition variationSelectChange (data : ChartData) (value : string)
  : list string :=
  if decide (value = "all") then map getVariationKey (variations data)
  else [value].

(** The variation a selected key is drawn for: [data.variations.find]. *)
Definition variationOfKey (data : ChartData) (variationKey : string)
  : option Variation :=
  List.find (λ v, bool_decide (getVariationKey v = variationKey))
            (variations data).

(** *** Zoom and pan

    The part of the component's state that the zoom and pan handlers read
    and write.  A handler is the function from the state of the render it
    was created in to the state it requests. *)
Record ChartState := {
  zoomLevel : num;
  panOffset : num;
  isPanning : bool;
  isDraggingSlider : bool;
  panStart : num
}.

(** The initial values given to [useState]. *)
Definition initialState : ChartState :=
  {| zoomLevel := Fin 1; panOffset := Fin 0; isPanning := false;
     isDraggingSlider := false; panStart := Fin 0 |}.

Definition setZoomLevel (x : num) (s : ChartState) : ChartState :=
  {| zoomLevel := x; panOffset := panOffset s; isPanning := isPanning s;
     isDraggingSlider := isDraggingSlider s; panStart := panStart s |}.

Definition setPanOffset (x : num) (s : ChartState) : ChartState :=
  {| zoomLevel := zoomLevel s; panOffset := x; isPanning := isPanning s;
     isDraggingSlider := isDraggingSlider s; panStart := panStart s |}.

Definition setIsPanning (b : bool) (s : ChartState) : ChartState :=
  {| zoomLevel := zoomLevel s; panOffset := panOffset s; isPanning := b;
     isDraggingSlider := isDraggingSlider s; panStart := panStart s |}.

Definition setIsDraggingSlider (b : bool) (s : ChartState) : ChartState :=
  {| zoomLevel := zoomLevel s; panOffset := panOffset s;
     isPanning := isPanning s; isDraggingSlider := b;
     panStart := panStart s |}.

Definition setPanStart (x : num) (s : ChartState) : ChartState :=
  {| zoomLevel := zoomLevel s; panOffset := panOffset s;
     isPanning := isPanning s; isDraggingSlider := isDraggingSlider s;
     panStart := x |}.

Definition handleZoomIn (s : ChartState) : ChartState :=
  setPanOffset (Fin 0)
    (setZoomLevel (Math_min (js_add (zoomLevel s) (Fin 0.5)) (Fin 5)) s).

Definition handleZoomOut (s : ChartState) : ChartState :=
  let newLevel := Math_max (js_sub (zoomLevel s) (Fin 0.5)) (Fin 1) in
  setZoomLevel newLevel
    (if js_eq newLevel (Fin 1) then setPanOffset (Fin 0) s else s).

Definition resetZoom (s : ChartState) : ChartState :=
  setPanOffset (Fin 0) (setZoomLevel (Fin 1) s).

Definition handleSliderMouseDown (clientX : num) (s : ChartState)
  : ChartState :=
  setPanStart clientX (setIsPanning true (setIsDraggingSlider true s)).

(** [onZoomControls]: the target of the event lies in the zoom controls. *)
Definition handleChartMouseDown (clientX : num) (onZoomControls : bool)
    (s : ChartState) : ChartState :=
  if js_gt (zoomLevel s) (Fin 1) && negb onZoomControls
  then setPanStart clientX (setIsDraggingSlider false (setIsPanning true s))
  else s.

(** The [onClick] of the zoom track, whose bounding rectangle starts at
    [rectLeft] and is [rectWidth] wide. *)
Definition zoomTrackClick (clientX rectLeft rectWidth : num) (s : ChartState)
  : ChartState :=
  let clickX := js_sub clientX rectLeft in
  let percentage := js_div clickX rectWidth in
  let newZoomLevel := js_add (Fin 1) (js_mul percentage (Fin 4)) in
  setPanOffset (Fin 0)
    (setZoomLevel (Math_max (Fin 1) (Math_min newZoomLevel (Fin 5))) s).

(** [track] is the bounding rectangle of the zoom track (its left edge and
    its width) when the reference to it is set; [clientWidth] is the width
    of the chart wrapper when it is found. *)
Definition handleGlobalMouseMove (clientX : num) (track : option (num * num))
    (totalPoints : nat) (clientWidth : option num) (s : ChartState)
  : ChartState :=
  let delta := js_sub (panStart s) clientX in
  let s' :=
    match isDraggingSlider s, track with
    | true, Some (rectLeft, rectWidth) =>
        let currentX := js_sub clientX rectLeft in
        let percentage :=
          Math_max (Fin 0) (Math_min (js_div currentX rectWidth) (Fin 1)) in
        let newZoomLevel := js_add (Fin 1) (js_mul percentage (Fin 4)) in
        setPanOffset (Fin 0) (setZoomLevel newZoomLevel s)
    | _, _ =>
        if js_gt (zoomLevel s) (Fin 1) then
          let totalPoints := ofNat totalPoints in
          let visiblePoints :=
            Math_floor (js_div totalPoints (zoomLevel s)) in
          let maxOffset :=
            Math_max (Fin 0) (js_sub totalPoints visiblePoints) in
          let chartWidth :=
            match clientWidth with
            | Some w => if truthy w then w else Fin 800
            | None => Fin 800
            end in
          let pixelToDataRatio := js_div maxOffset chartWidth in
          let newOffset :=
            js_add (panOffset s) (js_mul delta pixelToDataRatio) in
          setPanOffset (Math_max (Fin 0) (Math_min newOffset maxOffset)) s
        else s
    end in
  setPanStart clientX s'.

Definition handleGlobalMouseUp (s : ChartState) : ChartState :=
  setIsDraggingSlider false (setIsPanning false s).

End Program.

(** * The vocabulary of the properties *)

(** [x] is the finite number of value [q]. *)
Definition val_is (x : num) (q : Q) : Prop := ∃ q', x = Fin q' ∧ q' == q.

(** A pair of integer indices with
    [0 <= startIndex <= endIndex <= totalPoints - 1]. *)
Definition validWindow (totalPoints : nat) (r : option (num * num)) : Prop :=
  ∃ startIndex endIndex : Z,
    r = Some (Fin (inject_Z startIndex), Fin (inject_Z endIndex))
    ∧ (0 ≤ startIndex ≤ endIndex)%Z
    ∧ (endIndex ≤ Z.of_nat totalPoints - 1)%Z.

(** [r] is [x] rounded to two decimal digits: the multiple of 1/100
    nearest to [x], the upper one when [x] lies half-way. *)
Definition rounded2 (x r : Q) : Prop :=
  (∃ n : Z, r == n # 100) ∧ x - (1 # 200) < r ∧ r <= x + (1 # 200).

(** The value stored under [key] for the day of [dataPoint]. *)
Definition dayValue (dataPoint : DataPoint) (key : string) : value :=
  VNum (computeRate (orZero (conversions dataPoint !! key))
                    (orZero (visits dataPoint !! key))).

(** A point whose fields other than the date are numbers, as [processData]
    builds them. *)
Definition numericFields (point : ProcessedDataPoint) : Prop :=
  ∀ key v, key ≠ "date" → point !! key = Some v → ∃ n, v = VNum n.

(** The finite values the points of a chunk hold under [key], in order. *)
Definition finiteValues (chunk : list ProcessedDataPoint) (key : string)
  : list num :=
  omap (λ point : ProcessedDataPoint,
          match point !! key with
          | Some (VNum (Fin q)) => Some (Fin q)
          | _ => None
          end) chunk.

(** The arithmetic mean of [values], 0 when there is none. *)
Definition meanOf (values : list num) : num :=
  match values with
  | [] => Fin 0
  | _ => js_div (foldl js_add (Fin 0) values) (ofNat (length values))
  end.

(** NaN and the infinities are coerced to 0. *)
Definition zeroUnlessFinite (x : num) : num :=
  if isFinite x then x else Fin 0.

(** The weekly value the specification describes: the mean of the finite
    values, rounded to two decimal digits, 0 if that is not finite. *)
Definition weeklyMean (chunk : list ProcessedDataPoint) (key : string) : num :=
  zeroUnlessFinite (Number_toFixed2 (meanOf (finiteValues chunk key))).

Definition Qsum (qs : list Q) : Q := foldr Qplus 0 qs.

Section Notions.

Context {engine : Engine}.

(** The date entry of the point built for a week. *)
Definition weekLabel (chunk : list ProcessedDataPoint) : value :=
  match chunk with
  | [] => VUndefined
  | [point] => get point "date"
  | first :: _ =>
      VStr (ToString (get first "date") +:+ " - "
            +:+ ToString (get (default first (last chunk)) "date"))
  end.

(** The point [aggregateByWeek] pushes for one group. *)
Definition pointOfWeek (week : list ProcessedDataPoint) : ProcessedDataPoint :=
  weekPoint (default ∅ (head week)) week.

(** The test a field passes to be collected by [yAxisDomain]. *)
Definition collected (v : value) : bool :=
  negb (isNaN (ToNumber v))
  && isFinite (ToNumber v)
  && negb (match v with VUndefined => true | _ => false end).

(** The number [displayData] stores for a field. *)
Definition cleaned (v : value) : num :=
  if isNaN (ToNumber v) || negb (isFinite (ToNumber v))
     || match v with VUndefined => true | _ => false end
  then Fin 0 else ToNumber v.

End Notions.

(** ** Strings *)

Fixpoint lastChar (s : string) : option ascii :=
  match s with
  | EmptyString => None
  | String c s' =>
      match s' with
      | EmptyString => Some c
      | _ => lastChar s'
      end
  end.

Definition isDigit (c : ascii) : bool :=
  bool_decide (c ∈ ["0"; "1"; "2"; "3"; "4"; "5"; "6"; "7"; "8"; "9"]%char).

(** ** The events of the zoom and pan controls *)

Inductive ChartEvent : Type :=
  | ZoomIn
  | ZoomOut
  | ResetZoom
  | TrackClick (clientX rectLeft rectWidth : num)
  | SliderMouseDown (clientX : num)
  | ChartMouseDown (clientX : num) (onZoomControls : bool)
  | MouseMove (clientX : num) (track : option (num * num))
              (totalPoints : nat) (clientWidth : option num)
  | MouseUp.

(** The state after an event.  A disabled button takes no click (zoom out
    at [zoomLevel <= 1], zoom in at [zoomLevel >= 5], reset at
    [zoomLevel === 1]), and the two listeners on the document exist only
    while [isPanning] holds. *)
Definition handleEvent (s : ChartState) (e : ChartEvent) : ChartState :=
  match e with
  | ZoomIn => if js_ge (zoomLevel s) (Fin 5) then s else handleZoomIn s
  | ZoomOut => if js_le (zoomLevel s) (Fin 1) then s else handleZoomOut s
  | ResetZoom => if js_eq (zoomLevel s) (Fin 1) then s else resetZoom s
  | TrackClick clientX rectLeft rectWidth =>
      zoomTrackClick clientX rectLeft rectWidth s
  | SliderMouseDown clientX => handleSliderMouseDown clientX s
  | ChartMouseDown clientX onZoomControls =>
      handleChartMouseDown clientX onZoomControls s
  | MouseMove clientX track totalPoints clientWidth =>
      if isPanning s
      then handleGlobalMouseMove clientX track totalPoints clientWidth s
      else s
  | MouseUp => if isPanning s then handleGlobalMouseUp s else s
  end.

(** A pixel coordinate: a finite number, of magnitude at most 10^300. *)
Definition pixel (x : num) : Prop := ∃ q, x = Fin q ∧ Qabs q <= 1e300.

(** A positive finite width. *)
Definition positiveWidth (x : num) : Prop := ∃ q, x = Fin q ∧ 0 < q.

(** What the browser guarantees of an event: coordinates are pixels, the
    zoom track has a positive width, the series is an array, and the
    [clientWidth] of an element is a non-negative integer. *)
Definition wellFormed (e : ChartEvent) : Prop :=
  match e with
  | TrackClick clientX rectLeft rectWidth =>
      pixel clientX ∧ pixel rectLeft ∧ positiveWidth rectWidth
  | SliderMouseDown clientX | ChartMouseDown clientX _ => pixel clientX
  | MouseMove clientX track totalPoints clientWidth =>
      pixel clientX
      ∧ match track with
        | Some (rectLeft, rectWidth) => pixel rectLeft ∧ positiveWidth rectWidth
        | None => True
        end
      ∧ (Z.of_nat totalPoints < 2 ^ 32)%Z
      ∧ match clientWidth with
        | Some w => ∃ k : Z, w = Fin (inject_Z k) ∧ (0 ≤ k)%Z
        | None => True
        end
  | _ => True
  end.

(** A state in which zoom and pan are in range: the zoom level between 1
    and 5, the pan offset not negative, and 0 at zoom level 1. *)
Definition steady (s : ChartState) : Prop :=
  ∃ z p, zoomLevel s = Fin z ∧ panOffset s = Fin p
         ∧ 1 <= z ∧ z <= 5 ∧ 0 <= p ∧ (z == 1 → p == 0).

(** ** Raw data as the data file has it *)

(** A count: a non-negative integer that a number holds exactly. *)
Definition countValue (x : num) : Prop :=
  ∃ k : Z, x = Fin (inject_Z k) ∧ (0 ≤ k ≤ 2 ^ 53)%Z.

(** Every visit and conversion entry of every record is a count. *)
Definition countsOnly (chartData : ChartData) : Prop :=
  ∀ dataPoint key x,
    dataPoint ∈ data chartData →
    visits dataPoint !! key = Some x ∨ conversions dataPoint !! key = Some x →
    countValue x.

(** No record has an empty date. *)
Definition datedRecords (chartData : ChartData) : Prop :=
  ∀ dataPoint, dataPoint ∈ data chartData → date dataPoint ≠ "".

(** ** Example data *)

(** An engine for the examples: none of them puts a string where a number
    is expected, and none prints a number that is not an integer. *)
Definition exampleEngine : Engine :=
  {| StringToNumber := λ _, NaN; fractionToString := λ _, "" |}.

(** One day of one variation. *)
Definition record (day : string) (key : string) (conversions visits : Q)
  : DataPoint :=
  {| date := day;
     visits := {[ key := Fin visits ]};
     conversions := {[ key := Fin conversions ]} |}.

Definition oneDay : ChartData :=
  {| variations := [ {| id := Some (Fin 1); name := "A" |} ];
     data := [ record "2024-01-01" "1" 50 200 ] |}.

Definition tenDays : ChartData :=
  {| variations := [ {| id := Some (Fin 1); name := "A" |} ];
     data := [ record "2024-01-01" "1" 2 200; record "2024-01-02" "1" 4 200;
               record "2024-01-03" "1" 6 200; record "2024-01-04" "1" 8 200;
               record "2024-01-05" "1" 10 200; record "2024-01-06" "1" 12 200;
               record "2024-01-07" "1" 14 200; record "2024-01-08" "1" 16 200;
               record "2024-01-09" "1" 18 200; record "2024-01-10" "1" 20 200 ]
  |}.

(** A point with the value [q] under the key "1". *)
Definition pointOf (day : string) (q : Q) : ProcessedDataPoint :=
  {[ "date" := VStr day; "1" := VNum (Fin q) ]}.

(** Two variations, with the ids 1 and 2. *)
Definition twoVariations : ChartData :=
  {| variations := [ {| id := Some (Fin 1); name := "A" |};
                     {| id := Some (Fin 2); name := "B" |} ];
     data := [ record "2024-01-01" "1" 50 200 ] |}.

(** A state in the middle of a pan, at zoom level 2. *)
Definition panning : ChartState :=
  {| zoomLevel := Fin 2; panOffset := Fin 10; isPanning := true;
     isDraggingSlider := false; panStart := Fin 300 |}.

(** * Properties *)

(** ** Numbers *)

Lemma Qle_bool_false (x y : Q) : Qle_bool x y = false ↔ y < x.
Proof.
  split.
  - intros H. apply Qnot_le_lt. intros Hle.
    apply Qle_bool_iff in Hle. congruence.
  - intros H. destruct (Qle_bool x y) eqn:E; [|done].
    apply Qle_bool_iff in E. lra.
Qed.

Lemma Qeq_bool_false (x y : Q) : Qeq_bool x y = false ↔ ¬ x == y.
Proof.
  split; [apply Qeq_bool_neq|].
  intros H. destruct (Qeq_bool x y) eqn:E; [|done].
  apply Qeq_bool_iff in E. done.
Qed.

Lemma val_is_Fin (q : Q) : val_is (Fin q) q.
Proof. by exists q. Qed.

Lemma val_is_eq (x : num) (p q : Q) : val_is x p → p == q → val_is x q.
Proof. intros (r & -> & Hr) Hpq. exists r. split; [done|]. by rewrite Hr. Qed.

Lemma val_is_inj (x : num) (p q : Q) : val_is x p → val_is x q → p == q.
Proof. intros (r & -> & Hr) (r' & [= <-] & Hr'). by rewrite <- Hr, Hr'. Qed.

Lemma rnd_val (q : Q) : Qabs q <= MAX_VALUE → val_is (rnd q) q.
Proof.
  intros H. unfold rnd. apply Qle_bool_iff in H as ->.
  exists (Qred q). split; [done|]. apply Qred_correct.
Qed.


Lemma in_range (q b : Q) :
  - b <= q → q <= b → b <= MAX_VALUE → Qabs q <= MAX_VALUE.
Proof. intros. apply Qabs_Qle_condition. lra. Qed.

Lemma js_neg_val (x : num) (a : Q) : val_is x a → val_is (js_neg x) (- a).
Proof.
  intros (a' & -> & Ha). exists (Qred (- a')). split; [done|].
  by rewrite Qred_correct, Ha.
Qed.

Lemma js_add_val (x y : num) (a b : Q) :
  val_is x a → val_is y b → Qabs (a + b) <= MAX_VALUE →
  val_is (js_add x y) (a + b).
Proof.
  intros (a' & -> & Ha) (b' & -> & Hb) H. simpl.
  apply val_is_eq with (a' + b'); [|by rewrite Ha, Hb].
  apply rnd_val. by rewrite Ha, Hb.
Qed.

Lemma js_sub_val (x y : num) (a b : Q) :
  val_is x a → val_is y b → Qabs (a - b) <= MAX_VALUE →
  val_is (js_sub x y) (a - b).
Proof.
  intros Hx Hy H. unfold js_sub.
  apply js_add_val; [done| by apply js_neg_val | done].
Qed.

Lemma js_mul_val (x y : num) (a b : Q) :
  val_is x a → val_is y b → Qabs (a * b) <= MAX_VALUE →
  val_is (js_mul x y) (a * b).
Proof.
  intros (a' & -> & Ha) (b' & -> & Hb) H. simpl.
  apply val_is_eq with (a' * b'); [|by rewrite Ha, Hb].
  apply rnd_val. by rewrite Ha, Hb.
Qed.

Lemma js_div_val (x y : num) (a b : Q) :
  val_is x a → val_is y b → ¬ b == 0 → Qabs (a / b) <= MAX_VALUE →
  val_is (js_div x y) (a / b).
Proof.
  intros (a' & -> & Ha) (b' & -> & Hb) Hnz H. simpl.
  assert (Qeq_bool b' 0 = false) as ->.
  { apply Qeq_bool_false. by rewrite Hb. }
  apply val_is_eq with (a' / b'); [|by rewrite Ha, Hb].
  apply rnd_val. by rewrite Ha, Hb.
Qed.

Lemma js_lt_val (x y : num) (a b : Q) :
  val_is x a → val_is y b → js_lt x y = true ↔ a < b.
Proof.
  intros (a' & -> & Ha) (b' & -> & Hb). simpl.
  rewrite negb_true_iff, Qle_bool_false. by rewrite Ha, Hb.
Qed.

Lemma js_lt_val_false (x y : num) (a b : Q) :
  val_is x a → val_is y b → js_lt x y = false ↔ b <= a.
Proof.
  intros (a' & -> & Ha) (b' & -> & Hb). simpl.
  rewrite negb_false_iff, Qle_bool_iff. by rewrite Ha, Hb.
Qed.

Lemma js_le_val (x y : num) (a b : Q) :
  val_is x a → val_is y b → js_le x y = true ↔ a <= b.
Proof.
  intros (a' & -> & Ha) (b' & -> & Hb). simpl.
  rewrite Qle_bool_iff. by rewrite Ha, Hb.
Qed.

Lemma Math_max_val (x y : num) (a b : Q) :
  val_is x a → val_is y b →
  ∃ c, val_is (Math_max x y) c ∧ a <= c ∧ b <= c ∧ (c == a ∨ c == b).
Proof.
  intros Hx Hy.
  destruct (js_lt x y) eqn:E.
  - exists b. pose proof E as E'.
    apply (js_lt_val x y a b) in E'; [|done..].
    destruct Hx as (a' & -> & Ha), Hy as (b' & -> & Hb).
    simpl in *. rewrite E. repeat split; [by exists b' | lra | lra | by right].
  - exists a. pose proof E as E'.
    apply (js_lt_val_false x y a b) in E'; [|done..].
    destruct Hx as (a' & -> & Ha), Hy as (b' & -> & Hb).
    simpl in *. rewrite E. repeat split; [by exists a' | lra | lra | by left].
Qed.

Lemma Math_min_val (x y : num) (a b : Q) :
  val_is x a → val_is y b →
  ∃ c, val_is (Math_min x y) c ∧ c <= a ∧ c <= b ∧ (c == a ∨ c == b).
Proof.
  intros Hx Hy.
  destruct (js_lt y x) eqn:E.
  - exists b. pose proof E as E'.
    apply (js_lt_val y x b a) in E'; [|done..].
    destruct Hx as (a' & -> & Ha), Hy as (b' & -> & Hb).
    simpl in *. rewrite E. repeat split; [by exists b' | lra | lra | by right].
  - exists a. pose proof E as E'.
    apply (js_lt_val_false y x b a) in E'; [|done..].
    destruct Hx as (a' & -> & Ha), Hy as (b' & -> & Hb).
    simpl in *. rewrite E. repeat split; [by exists a' | lra | lra | by left].
Qed.

Lemma Math_floor_val (x : num) (a : Q) :
  val_is x a → val_is (Math_floor x) (inject_Z (Qfloor a)).
Proof.
  intros (a' & -> & Ha). simpl. exists (inject_Z (Qfloor a')).
  split; [done|]. by rewrite Ha.
Qed.

(** Integers within the exactly representable range. *)
Lemma int_in_range (k : Z) :
  (- 2 ^ 53 ≤ k ≤ 2 ^ 53)%Z → Qabs (inject_Z k) <= MAX_VALUE.
Proof.
  intros [Hl Hu]. apply Qabs_Qle_condition.
  assert (inject_Z (2 ^ 53) <= MAX_VALUE) as Hm by done.
  rewrite Zle_Qle in Hl, Hu. rewrite inject_Z_opp in Hl. lra.
Qed.

Lemma Qred_int (q : Q) (k : Z) : q == inject_Z k → Qred q = inject_Z k.
Proof.
  intros H. rewrite (Qred_complete _ _ H).
  apply Qred_identity. apply Z.gcd_1_r.
Qed.

Lemma rnd_int (q : Q) (k : Z) :
  q == inject_Z k → (- 2 ^ 53 ≤ k ≤ 2 ^ 53)%Z →
  rnd q = Fin (inject_Z k).
Proof.
  intros H Hk. unfold rnd.
  assert (Qle_bool (Qabs q) MAX_VALUE = true) as ->.
  { apply Qle_bool_iff. rewrite H. by apply int_in_range. }
  by rewrite (Qred_int q k).
Qed.

Lemma js_add_int (a b : Z) :
  (- 2 ^ 53 ≤ a + b ≤ 2 ^ 53)%Z →
  js_add (Fin (inject_Z a)) (Fin (inject_Z b)) = Fin (inject_Z (a + b)).
Proof. intros H. simpl. apply rnd_int; [|done]. by rewrite inject_Z_plus. Qed.

Lemma js_sub_int (a b : Z) :
  (- 2 ^ 53 ≤ a - b ≤ 2 ^ 53)%Z →
  js_sub (Fin (inject_Z a)) (Fin (inject_Z b)) = Fin (inject_Z (a - b)).
Proof.
  intros H. unfold js_sub. simpl.
  rewrite (Qred_int (- inject_Z b) (- b)) by (by rewrite inject_Z_opp).
  apply rnd_int; [|done]. by rewrite <- inject_Z_plus.
Qed.

Lemma js_lt_int (a b : Z) :
  js_lt (Fin (inject_Z a)) (Fin (inject_Z b)) = bool_decide (a < b)%Z.
Proof.
  simpl. case_bool_decide as H.
  - apply negb_true_iff, Qle_bool_false. by rewrite <- Zlt_Qlt.
  - apply negb_false_iff, Qle_bool_iff. rewrite <- Zle_Qle. lia.
Qed.

Lemma Math_max_int (a b : Z) :
  Math_max (Fin (inject_Z a)) (Fin (inject_Z b)) = Fin (inject_Z (a `max` b)).
Proof.
  unfold Math_max. rewrite js_lt_int.
  case_bool_decide; do 3 f_equal; lia.
Qed.

Lemma Math_min_int (a b : Z) :
  Math_min (Fin (inject_Z a)) (Fin (inject_Z b)) = Fin (inject_Z (a `min` b)).
Proof.
  unfold Math_min. rewrite js_lt_int.
  case_bool_decide; do 3 f_equal; lia.
Qed.

(** ** The visible window *)

(** The number of points shown at a zoom level above 1 lies between
    [totalPoints / zoomLevel - 1] and [totalPoints / zoomLevel]. *)
Lemma visiblePoints_floor (totalPoints : nat) (zoomLevel : Q) :
  (Z.of_nat totalPoints < 2 ^ 32)%Z → 1 < zoomLevel →
  let v := Qfloor (inject_Z (Z.of_nat totalPoints) / zoomLevel) in
  Math_floor (js_div (ofNat totalPoints) (Fin zoomLevel)) = Fin (inject_Z v)
  ∧ (0 ≤ v ≤ Z.of_nat totalPoints)%Z
  ∧ (zoomLevel <= inject_Z (Z.of_nat totalPoints) → (1 ≤ v)%Z).
Proof.
  intros Hn Hz v.
  set (N := inject_Z (Z.of_nat totalPoints)) in *.
  assert (0 <= N) as HN0.
  { unfold N. rewrite <- (Zle_Qle 0). lia. }
  assert (N <= inject_Z (2 ^ 32)) as HNu.
  { unfold N. rewrite <- Zle_Qle. lia. }
  assert (0 <= N / zoomLevel ∧ N / zoomLevel <= N) as [Hq0 Hq1].
  { split.
    - apply Qle_shift_div_l; lra.
    - apply Qle_shift_div_r; [lra|]. nra. }
  split; [|split].
  - unfold ofNat. fold N.
    destruct (js_div_val (Fin N) (Fin zoomLevel) N zoomLevel) as (q & -> & Hq);
      [apply val_is_Fin.. | lra | |].
    + apply in_range with (inject_Z (2 ^ 32)); [lra | lra | done].
    + simpl. by rewrite Hq.
  - split.
    + apply (Qfloor_resp_le (inject_Z 0)) in Hq0. by rewrite Qfloor_Z in Hq0.
    + apply Qfloor_resp_le in Hq1. unfold N in Hq1 at 2.
      by rewrite Qfloor_Z in Hq1.
  - intros Hle.
    assert (1 <= N / zoomLevel) as H1.
    { apply Qle_shift_div_l; lra. }
    apply (Qfloor_resp_le (inject_Z 1)) in H1. by rewrite Qfloor_Z in H1.
Qed.

(** C1, as the code has it: for a series of [totalPoints] points (an array
    length, below 2^32) and a zoom level above 1 that does not exceed
    [totalPoints], whatever the pan offset, [visibleDataRange] is a pair of
    integer indices with [0 <= startIndex <= endIndex <= totalPoints - 1]. *)
Theorem visibleDataRange_within_series
    (totalPoints : nat) (zoomLevel panOffset : Q) :
  (Z.of_nat totalPoints < 2 ^ 32)%Z →
  1 < zoomLevel → zoomLevel <= 5 →
  zoomLevel <= inject_Z (Z.of_nat totalPoints) →
  validWindow totalPoints
    (visibleDataRange (Fin zoomLevel) (Fin panOffset) totalPoints).
Proof.
  intros Hn Hz1 _ Hzn.
  destruct (visiblePoints_floor totalPoints zoomLevel Hn Hz1)
    as (Hv & Hv0 & Hv1).
  specialize (Hv1 Hzn).
  set (v := Qfloor (inject_Z (Z.of_nat totalPoints) / zoomLevel)) in *.
  unfold visibleDataRange.
  assert (js_le (Fin zoomLevel) (Fin 1) = false) as ->.
  { simpl. by apply Qle_bool_false. }
  rewrite Hv. unfold ofNat.
  rewrite js_sub_int by lia.
  change (Fin 0) with (Fin (inject_Z 0)). rewrite Math_max_int.
  change (Fin 1) with (Fin (inject_Z 1)).
  set (m := (0 `max` (Z.of_nat totalPoints - v))%Z).
  assert (0 <= inject_Z m) as Hm0 by (rewrite <- (Zle_Qle 0); lia).
  destruct (Math_min_val (Fin panOffset) (Fin (inject_Z m))
              panOffset (inject_Z m))
    as (c1 & Hc1 & _ & Hc1m & _); [apply val_is_Fin..|].
  destruct (Math_max_val (Fin (inject_Z 0)) _ 0 c1 (val_is_Fin _) Hc1)
    as (c & (c' & -> & Hc') & Hc0 & _ & Hc).
  simpl Math_floor.
  assert (0 ≤ Qfloor c' ≤ m)%Z as [Hs0 Hsm].
  { split.
    - rewrite <- (Qfloor_Z 0). apply Qfloor_resp_le. rewrite Hc'.
      by change (inject_Z 0) with 0.
    - rewrite <- (Qfloor_Z m). apply Qfloor_resp_le. rewrite Hc'.
      destruct Hc as [-> | ->]; lra. }
  rewrite js_add_int, !js_sub_int, Math_min_int by lia.
  eexists _, _. split; [reflexivity|]. lia.
Qed.

Lemma visibleDataRange_within_series_witness :
  validWindow 100 (visibleDataRange (Fin 2) (Fin 1000) 100).
Proof.
  apply (visibleDataRange_within_series 100 2 1000); [lia | done..].
Defined.

(** C1 as stated fails when the series is shorter than the zoom level:
    one point at zoom level 2 gives the window [0, -1]. *)
Lemma visibleDataRange_short_series :
  (0 < 1)%nat ∧ 1 < 2 ∧ 2 <= 5
  ∧ visibleDataRange (Fin 2) (Fin 0) 1 = Some (Fin 0, Fin (-1))
  ∧ ¬ validWindow 1 (visibleDataRange (Fin 2) (Fin 0) 1).
Proof.
  split; [lia|]. do 2 (split; [done|]).
  split; [by vm_compute|].
  intros (s & e & H & Hse & He).
  vm_compute in H. injection H as Hs He'.
  destruct s, e; try discriminate; lia.
Qed.

(** ** Rates *)

(** C4: whatever the two numbers are, NaN and the infinities included,
    [computeRate] returns a finite number, and it returns 0 whenever the
    rate it computed on the way is not finite. *)
Theorem computeRate_never_NaN_nor_infinite (conversions visits : num) :
  isNaN (computeRate conversions visits) = false
  ∧ isFinite (computeRate conversions visits) = true
  ∧ match calculateConversionRate conversions visits with
    | Fin _ => True
    | _ => computeRate conversions visits = Fin 0
    end.
Proof.
  unfold computeRate.
  destruct (calculateConversionRate conversions visits) as [| | |q]; simpl;
    try done.
  by destruct (Qle_bool 1e21 (Qabs q)).
Qed.

Lemma Qmake_100 (n : Z) : n # 100 == inject_Z n * (1 # 100).
Proof. unfold Qeq. simpl. lia. Qed.

Lemma Number_toFixed2_rounded (q x : Q) :
  q == x → 0 <= x → x < 1e21 →
  ∃ r, Number_toFixed2 (Fin q) = Fin r ∧ rounded2 x r.
Proof.
  intros Hq H0 H21. unfold Number_toFixed2.
  assert (Qabs q == x) as Habs by (rewrite Qabs_pos; lra).
  assert (Qle_bool 1e21 (Qabs q) = false) as ->.
  { apply Qle_bool_false. by rewrite Habs. }
  assert (Qle_bool 0 q = true) as ->.
  { apply Qle_bool_iff. lra. }
  eexists. split; [reflexivity|].
  set (n := Qfloor (Qabs q * 100 + (1 # 2))).
  pose proof (Qfloor_le (Qabs q * 100 + (1 # 2))) as Hle.
  pose proof (Qlt_floor (Qabs q * 100 + (1 # 2))) as Hlt.
  fold n in Hle, Hlt. rewrite inject_Z_plus in Hlt.
  change (inject_Z 1) with 1 in Hlt.
  rewrite Habs in Hle, Hlt.
  split.
  - exists n. apply Qred_correct.
  - rewrite Qred_correct, Qmake_100. lra.
Qed.


Lemma rounded2_nonneg (x r : Q) : 0 <= x → rounded2 x r → 0 <= r.
Proof.
  intros Hx ((n & Hn) & Hlo & _).
  rewrite Hn, Qmake_100 in *.
  assert (inject_Z (-1) < inject_Z n) as Hlt.
  { change (inject_Z (-1)) with (-1). lra. }
  rewrite <- Zlt_Qlt in Hlt.
  assert (0 <= inject_Z n) by (rewrite <- (Zle_Qle 0); lia). lra.
Qed.


(** The rate itself is exact while it fits the number range, and
    [Infinity] beyond. *)
Lemma calculateConversionRate_val (c v : Q) :
  0 <= c → 0 < v → c / v * 100 <= MAX_VALUE →
  val_is (calculateConversionRate (Fin c) (Fin v)) (c / v * 100).
Proof.
  intros Hc Hv Hx. unfold calculateConversionRate.
  assert (js_eq (Fin v) (Fin 0) = false) as ->.
  { simpl. apply Qeq_bool_false. lra. }
  assert (0 <= c / v) as Hq by (apply Qle_shift_div_l; lra).
  assert (0 < MAX_VALUE) as Hpos by done.
  apply js_mul_val; [|apply val_is_Fin|].
  - apply js_div_val; [apply val_is_Fin.. | lra |].
    apply in_range with MAX_VALUE; lra.
  - apply in_range with MAX_VALUE; lra.
Qed.





(** ** Week groups *)

Lemma weekGroupsFrom_step {A : Type} (data : list A) (i : nat) :
  weekGroupsFrom data i =
    if decide (i < length data)%nat
    then take 7 (drop i data) :: weekGroupsFrom data (i + 7)
    else [].
Proof.
  rewrite weekGroupsFrom_equation_1.
  destruct (decide (i < length data)%nat) as [Hlt|Hge]; simpl; [|done].
  assert ((0 <? length (take 7 (drop i data)))%nat = true) as ->; [|done].
  apply Nat.ltb_lt. rewrite length_take, length_drop. lia.
Qed.

(** The [j]-th group from index [i] on is the slice of seven elements that
    starts at [i + 7 * j], as long as that index is in the array. *)
Lemma weekGroupsFrom_lookup {A : Type} (data : list A) (i j : nat) :
  weekGroupsFrom data i !! j =
    if decide (i + 7 * j < length data)%nat
    then Some (take 7 (drop (i + 7 * j) data))
    else None.
Proof.
  revert i. induction j as [|j IH]; intros i.
  - rewrite weekGroupsFrom_step. replace (i + 7 * 0)%nat with i by lia.
    by destruct (decide (i < length data)%nat).
  - rewrite weekGroupsFrom_step.
    destruct (decide (i < length data)%nat) as [Hlt|Hge]; simpl.
    + rewrite IH. replace (i + 7 + 7 * j)%nat with (i + 7 * S j)%nat by lia.
      done.
    + rewrite decide_False by lia. done.
Qed.

Lemma weekGroupsFrom_length {A : Type} (data : list A) (i : nat) :
  length (weekGroupsFrom data i) = ((length data - i + 6) / 7)%nat.
Proof.
  remember (length data - i)%nat as d eqn:Hd.
  revert i Hd. induction (lt_wf d) as [d _ IH]. intros i Hd.
  rewrite weekGroupsFrom_step.
  destruct (decide (i < length data)%nat) as [Hlt|Hge]; cbn [length].
  - rewrite (IH (length data - (i + 7))%nat) by lia.
    destruct (decide (d ≤ 7)%nat) as [Hle|Hgt].
    + replace (length data - (i + 7))%nat with 0%nat by lia.
      change ((0 + 6) / 7)%nat with 0%nat.
      apply (Nat.div_unique (d + 6) 7 1 (d - 1)); lia.
    + replace (d + 6)%nat with ((length data - (i + 7) + 6) + 1 * 7)%nat by lia.
      rewrite Nat.div_add by lia. lia.
  - replace d with 0%nat by lia. done.
Qed.

Lemma weekGroupsFrom_nonempty {A : Type} (data : list A) (i : nat) :
  Forall (λ week, week ≠ []) (weekGroupsFrom data i).
Proof.
  apply Forall_lookup. intros j week Hj.
  rewrite weekGroupsFrom_lookup in Hj.
  destruct (decide (i + 7 * j < length data)%nat) as [Hlt|]; [|done].
  injection Hj as <-. intros Hnil.
  apply (f_equal length) in Hnil.
  rewrite length_take, length_drop in Hnil. cbn [length] in Hnil. lia.
Qed.

Lemma elem_of_take_drop {A : Type} (l : list A) (n i : nat) (x : A) :
  x ∈ take n (drop i l) → x ∈ l.
Proof.
  intros (k & Hk & _)%elem_of_take. rewrite lookup_drop in Hk.
  by eapply list_elem_of_lookup_2.
Qed.

(** ** Objects built key by key *)

Lemma foldl_insert_lookup {V : Type} (f : string → V) (keys : list string)
    (m : gmap string V) (k : string) :
  foldl (λ m key, <[key := f key]> m) m keys !! k =
    if decide (k ∈ keys) then Some (f k) else m !! k.
Proof.
  revert m. induction keys as [|key keys IH]; intros m.
  - case_decide; [set_solver | done].
  - cbn [foldl]. rewrite IH.
    destruct (decide (k ∈ keys)) as [Hin|Hnin].
    + case_decide; [done | set_solver].
    + destruct (decide (k = key)) as [->|Hne].
      * rewrite lookup_insert_eq. case_decide; [done | set_solver].
      * rewrite lookup_insert_ne by done. case_decide as Hk; [|done].
        apply elem_of_cons in Hk as [?|?]; done.
Qed.

Lemma foldl_insert_dom {V : Type} (f : string → V) (keys : list string)
    (m : gmap string V) :
  dom (foldl (λ m key, <[key := f key]> m) m keys)
  = dom m ∪ list_to_set keys.
Proof.
  apply set_eq. intros k.
  rewrite elem_of_dom, foldl_insert_lookup, elem_of_union, elem_of_dom,
    elem_of_list_to_set.
  destruct (decide (k ∈ keys)); [|tauto].
  split; [by right | by eexists].
Qed.

(** Assignments key by key create the properties of the keys other than
    "__proto__". *)
Lemma foldl_setField (f : string → value) (keys : list string)
    (m : ProcessedDataPoint) :
  foldl (λ m key, setField key (f key) m) m keys
  = foldl (λ m key, <[key := f key]> m) m
          (filter (λ key, key ≠ "__proto__") keys).
Proof.
  revert m. induction keys as [|key keys IH]; intros m; [done|].
  cbn [foldl]. rewrite IH, filter_cons. unfold setField.
  destruct (decide (key = "__proto__")) as [->|Hne].
  - by rewrite decide_False by (by intros ?).
  - by rewrite decide_True.
Qed.

Lemma foldl_setField_lookup (f : string → value) (keys : list string)
    (m : ProcessedDataPoint) (k : string) :
  foldl (λ m key, setField key (f key) m) m keys !! k =
    if decide (k ∈ keys)
    then if decide (k = "__proto__") then m !! k else Some (f k)
    else m !! k.
Proof.
  rewrite foldl_setField, foldl_insert_lookup.
  destruct (decide (k ∈ keys)) as [Hin|Hnin].
  - destruct (decide (k = "__proto__")) as [->|Hne].
    + rewrite decide_False; [done|].
      intros Hk. by apply list_elem_of_filter in Hk as [? _].
    + rewrite decide_True; [done|]. by apply list_elem_of_filter.
  - rewrite decide_False; [done|].
    intros Hk. by apply list_elem_of_filter in Hk as [_ ?].
Qed.

Lemma foldl_setField_dom (f : string → value) (keys : list string)
    (m : ProcessedDataPoint) :
  dom (foldl (λ m key, setField key (f key) m) m keys)
  = dom m ∪ (list_to_set keys ∖ {["__proto__"]}).
Proof.
  rewrite foldl_setField, foldl_insert_dom. f_equal.
  apply set_eq. intros k.
  rewrite elem_of_list_to_set, list_elem_of_filter, elem_of_difference,
    elem_of_list_to_set, elem_of_singleton.
  tauto.
Qed.

Lemma Object_keys_elem (point : ProcessedDataPoint) (key : string) :
  key ∈ Object_keys point ↔ is_Some (point !! key).
Proof.
  unfold Object_keys. rewrite list_elem_of_fmap. split.
  - intros ([k v] & -> & Hin). apply elem_of_map_to_list in Hin. by exists v.
  - intros [v Hv]. exists (key, v). split; [done|].
    by apply elem_of_map_to_list.
Qed.

Lemma dayPoint_lookup (keys : list string) (dataPoint : DataPoint)
    (key : string) :
  dayPoint keys dataPoint !! key =
    if decide (key ∈ keys)
    then if decide (key = "__proto__") then None
         else Some (dayValue dataPoint key)
    else if decide (key = "date") then Some (VStr (date dataPoint))
    else None.
Proof.
  unfold dayPoint.
  rewrite (foldl_setField_lookup (dayValue dataPoint)).
  destruct (decide (key ∈ keys)).
  - destruct (decide (key = "__proto__")) as [->|Hne]; [|done].
    by rewrite lookup_singleton_ne.
  - destruct (decide (key = "date")) as [->|Hne].
    + by rewrite lookup_singleton_eq.
    + by rewrite lookup_singleton_ne.
Qed.

Lemma dayPoint_dom (keys : list string) (dataPoint : DataPoint) :
  dom (dayPoint keys dataPoint)
  = {["date"]} ∪ (list_to_set keys ∖ {["__proto__"]}).
Proof.
  unfold dayPoint.
  by rewrite (foldl_setField_dom (dayValue dataPoint)), dom_singleton_L.
Qed.

Lemma finiteValues_cons (point : ProcessedDataPoint)
    (chunk : list ProcessedDataPoint) (key : string) :
  finiteValues (point :: chunk) key =
    match point !! key with
    | Some (VNum (Fin q)) => Fin q :: finiteValues chunk key
    | _ => finiteValues chunk key
    end.
Proof.
  unfold finiteValues. simpl.
  by destruct (point !! key) as [[| |[| | |]]|].
Qed.

Lemma dayPoint_numericFields (keys : list string) (dataPoint : DataPoint) :
  numericFields (dayPoint keys dataPoint).
Proof.
  intros key v Hne Hv. rewrite dayPoint_lookup in Hv.
  case_decide.
  - case_decide; [done|]. injection Hv as <-. by eexists.
  - by rewrite decide_False in Hv.
Qed.

Lemma Qsum_cons (q : Q) (qs : list Q) : Qsum (q :: qs) = q + Qsum qs.
Proof. done. Qed.

Lemma Qsum_nonneg (qs : list Q) : Forall (λ q, 0 <= q) qs → 0 <= Qsum qs.
Proof.
  induction 1 as [|q qs Hq _ IH]; [done|]. rewrite Qsum_cons.
  cbv beta in Hq. lra.
Qed.

Lemma foldl_js_add_sum (qs : list Q) (acc : num) (a : Q) :
  val_is acc a → 0 <= a → Forall (λ q, 0 <= q) qs →
  a + Qsum qs <= MAX_VALUE →
  val_is (foldl js_add acc (map Fin qs)) (a + Qsum qs).
Proof.
  revert acc a. induction qs as [|q qs IH]; intros acc a Hacc Ha Hqs Hmax.
  - apply val_is_eq with a; [done|]. change (Qsum []) with 0. lra.
  - apply Forall_cons in Hqs as [Hq Hqs]. cbv beta in Hq. cbn [map foldl].
    pose proof (Qsum_nonneg qs Hqs) as Hsum.
    rewrite Qsum_cons in Hmax.
    apply val_is_eq with (a + q + Qsum qs); [|rewrite Qsum_cons; lra].
    apply IH; [|lra|done|lra].
    apply js_add_val; [done | apply val_is_Fin |].
    apply in_range with MAX_VALUE; lra.
Qed.



Section Series.

Context {engine : Engine}.

Lemma weekPoint_lookup (week0 : ProcessedDataPoint)
    (rest : list ProcessedDataPoint) (key : string) :
  weekPoint week0 (week0 :: rest) !! key =
    if decide (key = "date") then Some (weekLabel (week0 :: rest))
    else if decide (is_Some (week0 !! key))
         then if decide (key = "__proto__") then None
              else Some (VNum (weekValue (week0 :: rest) key))
         else None.
Proof.
  unfold weekPoint.
  rewrite (foldl_setField_lookup
             (λ key, VNum (weekValue (week0 :: rest) key))).
  destruct (decide (key = "date")) as [->|Hne].
  - rewrite decide_False.
    + rewrite lookup_singleton_eq. by destruct rest.
    + intros Hin. by apply list_elem_of_filter in Hin as [? _].
  - destruct (decide (is_Some (week0 !! key))) as [Hsome|Hnone].
    + rewrite decide_True.
      * destruct (decide (key = "__proto__")); [|done].
        by rewrite lookup_singleton_ne.
      * apply list_elem_of_filter. split; [done|]. by apply Object_keys_elem.
    + rewrite decide_False.
      * by rewrite lookup_singleton_ne.
      * intros Hin. apply list_elem_of_filter in Hin as [_ Hin].
        by apply Object_keys_elem in Hin.
Qed.

Lemma aggregateByWeek_groups (data : list ProcessedDataPoint) :
  aggregateByWeek data = map pointOfWeek (weekGroupsFrom data 0).
Proof.
  unfold aggregateByWeek.
  induction (weekGroupsFrom_nonempty data 0) as [|week groups Hne _ IH];
    [done|].
  cbn [flat_map map]. rewrite IH. by destruct week.
Qed.

Lemma aggregateByWeek_length (data : list ProcessedDataPoint) :
  length (aggregateByWeek data) = ((length data + 6) / 7)%nat.
Proof.
  rewrite aggregateByWeek_groups, length_map, weekGroupsFrom_length.
  by rewrite Nat.sub_0_r.
Qed.

(** The [j]-th weekly point comes from the seven days that start at
    [7 * j]. *)
Lemma aggregateByWeek_lookup (data : list ProcessedDataPoint) (j : nat) :
  (j < length (aggregateByWeek data))%nat →
  ∃ first rest,
    take 7 (drop (7 * j) data) = first :: rest
    ∧ aggregateByWeek data !! j = Some (weekPoint first (first :: rest)).
Proof.
  intros Hj.
  rewrite aggregateByWeek_groups, length_map in Hj.
  apply lookup_lt_is_Some in Hj as [week Hweek].
  pose proof Hweek as Hchunk. rewrite weekGroupsFrom_lookup in Hchunk.
  destruct (decide (0 + 7 * j < length data)%nat); [|done].
  injection Hchunk as Hchunk. change (0 + 7 * j)%nat with (7 * j)%nat in Hchunk.
  pose proof (weekGroupsFrom_nonempty data 0) as Hne.
  rewrite Forall_lookup in Hne. specialize (Hne j week Hweek).
  destruct week as [|first rest]; [done|].
  exists first, rest. split; [done|].
  by rewrite aggregateByWeek_groups, list_lookup_fmap, Hweek.
Qed.

(** ** The series *)

(** C5, as the code has it: unless "date" itself is among the selected
    keys, the day series has one point per record, in the order of the
    records, each carrying the date of its record. *)
Theorem processData_day_keeps_dates (chartData : ChartData)
    (selectedVariations : list string) :
  "date" ∉ selectedVariations →
  length (processData chartData selectedVariations day)
    = length (data chartData)
  ∧ ∀ i dataPoint,
      data chartData !! i = Some dataPoint →
      ∃ point,
        processData chartData selectedVariations day !! i = Some point
        ∧ point !! "date" = Some (VStr (date dataPoint)).
Proof.
  intros Hdate. unfold processData. split; [by rewrite length_map|].
  intros i dataPoint Hi. eexists. split.
  - by rewrite list_lookup_fmap, Hi.
  - rewrite dayPoint_lookup. by rewrite decide_False, decide_True.
Qed.

(** C2, as the code has it: without records the series is empty; with
    records but no selected key it has a point for every record (every
    group of seven for the week series), each holding nothing but its
    date. *)
Theorem processData_empty_inputs (chartData : ChartData)
    (selectedVariations : list string) (timeRange : TimeRange) :
  (data chartData = [] →
   processData chartData selectedVariations timeRange = [])
  ∧ (selectedVariations = [] →
     Forall (λ point : ProcessedDataPoint, dom point = {["date"]})
            (processData chartData selectedVariations timeRange)
     ∧ length (processData chartData selectedVariations timeRange)
       = match timeRange with
         | day => length (data chartData)
         | week => ((length (data chartData) + 6) / 7)%nat
         end).
Proof.
  unfold processData. split.
  - intros ->. by destruct timeRange.
  - intros ->.
    assert (Forall (λ point : ProcessedDataPoint, dom point = {["date"]})
                   (map (dayPoint []) (data chartData))) as Hdays.
    { apply Forall_fmap, Forall_forall. intros dataPoint _. simpl.
      rewrite dayPoint_dom. apply union_empty_r_L. }
    destruct timeRange.
    + split; [done | by rewrite length_map].
    + split; [| by rewrite aggregateByWeek_length, length_map].
      apply Forall_lookup. intros j point Hj.
      destruct (aggregateByWeek_lookup (map (dayPoint []) (data chartData)) j)
        as (first & rest & Hchunk & Hpoint).
      { by apply lookup_lt_is_Some; exists point. }
      rewrite Hpoint in Hj. injection Hj as <-.
      assert (dom first = {["date"]}) as Hfirst.
      { rewrite Forall_forall in Hdays. apply Hdays.
        apply (elem_of_take_drop _ 7 (7 * j)). rewrite Hchunk. by left. }
      apply set_eq. intros key.
      rewrite elem_of_dom, weekPoint_lookup, elem_of_singleton.
      destruct (decide (key = "date")) as [->|Hne]; [by split; [|eexists]|].
      rewrite decide_False; [by split; [intros [? ?]|]|].
      rewrite <- elem_of_dom, Hfirst, elem_of_singleton. done.
Qed.

(** C6: the week series has ceil(n / 7) = (n + 6) / 7 points for [n]
    records; its [j]-th point is built from the seven consecutive day
    points that start at [7 * j] (fewer at the end of the series, never
    none) and is labelled with the date of that chunk when it holds a
    single point, and with its first and last dates around " - "
    otherwise.  Ten records give two points, the second labelled with the
    dates of days 8 and 10. *)
Theorem processData_week_chunks (chartData : ChartData)
    (selectedVariations : list string) :
  let days := processData chartData selectedVariations day in
  let weeks := processData chartData selectedVariations week in
  length weeks = ((length (data chartData) + 6) / 7)%nat
  ∧ (∀ j, (j < length weeks)%nat →
       ∃ point,
         weeks !! j = Some point
         ∧ take 7 (drop (7 * j) days) ≠ []
         ∧ point !! "date" = Some (weekLabel (take 7 (drop (7 * j) days))))
  ∧ (length (data chartData) = 10%nat →
       ∃ week1 week2 day8 day10,
         weeks = [week1; week2]
         ∧ days !! 7%nat = Some day8 ∧ days !! 9%nat = Some day10
         ∧ week2 !! "date"
           = Some (VStr (ToString (get day8 "date") +:+ " - "
                         +:+ ToString (get day10 "date")))
         ∧ ("date" ∉ selectedVariations →
            ∀ record8 record10,
              data chartData !! 7%nat = Some record8 →
              data chartData !! 9%nat = Some record10 →
              week2 !! "date"
              = Some (VStr (date record8 +:+ " - " +:+ date record10)))).
Proof.
  intros days weeks.
  assert (length days = length (data chartData)) as Hdays
    by apply length_map.
  assert (length weeks = ((length (data chartData) + 6) / 7)%nat) as Hlen.
  { unfold weeks, processData.
    by rewrite aggregateByWeek_length, length_map. }
  assert (∀ j, (j < length weeks)%nat →
       ∃ point,
         weeks !! j = Some point
         ∧ take 7 (drop (7 * j) days) ≠ []
         ∧ point !! "date" = Some (weekLabel (take 7 (drop (7 * j) days))))
    as Hchunks.
  { intros j Hj.
    destruct (aggregateByWeek_lookup days j Hj)
      as (first & rest & Hchunk & Hpoint).
    eexists. split; [exact Hpoint|]. rewrite Hchunk. split; [done|].
    by rewrite weekPoint_lookup, decide_True. }
  split; [done|]. split; [done|].
  intros H10. rewrite H10 in Hlen. change ((10 + 6) / 7)%nat with 2%nat in Hlen.
  destruct weeks as [|week1 [|week2 [|? ?]]] eqn:Hweeks; try done.
  destruct (Hchunks 1%nat) as (point & Hpoint & _ & Hlabel); [simpl; lia|].
  injection Hpoint as <-.
  rewrite H10 in Hdays.
  pose proof (eq_refl
              : days = map (dayPoint selectedVariations) (data chartData))
    as Hmap.
  destruct days
    as [|d1 [|d2 [|d3 [|d4 [|d5 [|d6 [|d7 [|d8 [|d9 [|d10 [|? ?]]]]]]]]]]];
    try done.
  exists week1, week2, d8, d10. repeat split; try done.
  intros Hdate record8 record10 H8 H10'.
  rewrite Hlabel. simpl. do 3 f_equal.
  - assert (d8 = dayPoint selectedVariations record8) as ->.
    { apply (f_equal (λ l, l !! 7%nat)) in Hmap.
      rewrite list_lookup_fmap, H8 in Hmap. by injection Hmap. }
    unfold get. rewrite dayPoint_lookup. by rewrite decide_False, decide_True.
  - f_equal.
    assert (d10 = dayPoint selectedVariations record10) as ->.
    { apply (f_equal (λ l, l !! 9%nat)) in Hmap.
      rewrite list_lookup_fmap, H10' in Hmap. by injection Hmap. }
    unfold get. rewrite dayPoint_lookup. by rewrite decide_False, decide_True.
Qed.

(** C10: a variation without an id and a variation whose id is 0 both get
    the key "0"; selected together they write the same field of every
    point, so the series is the one of the single key "0". *)
Theorem getVariationKey_absent_and_zero_collide (name1 name2 : string)
    (chartData : ChartData) (timeRange : TimeRange) :
  let absent := {| id := None; name := name1 |} in
  let zero := {| id := Some (Fin 0); name := name2 |} in
  getVariationKey absent = "0"
  ∧ getVariationKey zero = "0"
  ∧ processData chartData (map (getVariationKey) [absent; zero]) timeRange
    = processData chartData ["0"] timeRange
  ∧ Forall (λ point : ProcessedDataPoint, dom point = {["date"; "0"]})
           (processData chartData (map (getVariationKey) [absent; zero]) day).
Proof.
  intros absent zero.
  assert (getVariationKey zero = "0") as Hzero by done.
  assert (map (dayPoint ["0"; "0"]) (data chartData)
          = map (dayPoint ["0"]) (data chartData)) as Hsame.
  { apply map_ext. intros dataPoint. unfold dayPoint. cbn [foldl].
    unfold setField. rewrite !decide_False by done.
    by rewrite insert_insert_eq. }
  split; [done|]. split; [done|]. split.
  - unfold processData. cbn [map]. rewrite Hzero.
    change (getVariationKey absent) with "0".
    by rewrite Hsame.
  - unfold processData. cbn [map]. rewrite Hzero.
    change (getVariationKey absent) with "0".
    apply Forall_fmap, Forall_forall. intros dataPoint _. simpl.
    rewrite dayPoint_dom. set_solver.
Qed.

(** On points with numeric fields, the value computed for a week is the
    rounded mean of the finite values. *)
Lemma weekValue_weeklyMean (chunk : list ProcessedDataPoint) (key : string) :
  key ≠ "date" → Forall numericFields chunk →
  weekValue chunk key = weeklyMean chunk key.
Proof.
  intros Hkey Hchunk. unfold weekValue, weeklyMean.
  set (keep := λ val : value,
         negb (isNaN (ToNumber val))
         && negb (match val with VUndefined => true | _ => false end)
         && isFinite (ToNumber val) = true).
  assert (filter keep (map (λ point : ProcessedDataPoint, get point key) chunk)
          = map VNum (finiteValues chunk key)) as ->.
  { induction Hchunk as [|point chunk Hpoint _ IH]; [done|].
    cbn [map]. rewrite filter_cons, IH, finiteValues_cons.
    unfold get, keep. specialize (Hpoint key).
    destruct (point !! key) as [v|] eqn:Hv.
    - destruct (Hpoint v Hkey eq_refl) as [n ->].
      destruct n; cbn [ToNumber isNaN isFinite negb andb]; case_decide; done.
    - cbn [ToNumber isNaN isFinite negb andb]. case_decide; done. }
  rewrite length_map.
  assert (∀ (l : list num) (acc : num),
            foldl (js_plus) (VNum acc)
                  (map VNum l)
            = VNum (foldl js_add acc l)) as ->.
  { induction l as [|x l IH]; intros acc; [done|]. cbn [map foldl]. apply IH. }
  cbn [ToNumber]. unfold meanOf, zeroUnlessFinite.
  destruct (finiteValues chunk key) as [|x l]; cbn [length Nat.ltb Nat.leb].
  - done.
  - by destruct (Number_toFixed2 _).
Qed.


(** What the day series is for a single record, whatever the engine:
    without a selected key, and with "date" as the selected key. *)
Lemma processData_oneDay_no_key :
  processData oneDay [] day = [ {[ "date" := VStr "2024-01-01" ]} ].
Proof. reflexivity. Qed.

Lemma processData_oneDay_date_key :
  processData oneDay ["date"] day = [ {[ "date" := VNum (Fin 0) ]} ].
Proof. by vm_compute. Qed.

End Series.

(** ** The value axis *)

Lemma foldl_Math_min_Fin (lo hi : Q) (xs : list num) (a : Q) :
  Forall (λ x, ∃ q, x = Fin q ∧ lo <= q ∧ q <= hi) xs → lo <= a →
  ∃ m, foldl Math_min (Fin a) xs = Fin m ∧ lo <= m ∧ m <= a.
Proof.
  intros Hxs. revert a.
  induction Hxs as [|x xs (q & -> & Hq) _ IH]; intros a Ha.
  - exists a. split; [done | lra].
  - cbn [foldl].
    destruct (Math_min_val (Fin a) (Fin q) a q)
      as (c & (c' & -> & Hc') & Hca & Hcq & Hc); [apply val_is_Fin..|].
    destruct (IH c') as (m & -> & Hm); [destruct Hc; lra|].
    exists m. split; [done | lra].
Qed.

Lemma foldl_Math_max_Fin (lo hi : Q) (xs : list num) (a : Q) :
  Forall (λ x, ∃ q, x = Fin q ∧ lo <= q ∧ q <= hi) xs → a <= hi →
  ∃ m, foldl Math_max (Fin a) xs = Fin m ∧ a <= m ∧ m <= hi.
Proof.
  intros Hxs. revert a.
  induction Hxs as [|x xs (q & -> & Hq) _ IH]; intros a Ha.
  - exists a. split; [done | lra].
  - cbn [foldl].
    destruct (Math_max_val (Fin a) (Fin q) a q)
      as (c & (c' & -> & Hc') & Hca & Hcq & Hc); [apply val_is_Fin..|].
    destruct (IH c') as (m & -> & Hm); [destruct Hc; lra|].
    exists m. split; [done | lra].
Qed.

(** The smallest and the largest of a non-empty array of bounded finite
    numbers. *)
Lemma Math_min_max_spread (lo hi : Q) (xs : list num) :
  xs ≠ [] → Forall (λ x, ∃ q, x = Fin q ∧ lo <= q ∧ q <= hi) xs →
  ∃ m M, Math_min_spread xs = Fin m ∧ Math_max_spread xs = Fin M
         ∧ lo <= m ∧ m <= M ∧ M <= hi.
Proof.
  intros Hne Hxs. destruct Hxs as [|x xs (q & -> & Hq) Hxs]; [done|].
  unfold Math_min_spread, Math_max_spread. cbn [foldl].
  change (Math_min PInf (Fin q)) with (Fin q).
  change (Math_max NInf (Fin q)) with (Fin q).
  destruct (foldl_Math_min_Fin lo hi xs q Hxs) as (m & -> & Hm); [lra|].
  destruct (foldl_Math_max_Fin lo hi xs q Hxs) as (M & -> & HM); [lra|].
  exists m, M. repeat split; lra.
Qed.

Lemma MAX_VALUE_lower : 17e307 <= MAX_VALUE.
Proof. by apply Qle_bool_imp_le. Qed.

(** Replace the innermost arithmetic operation on finite numbers by its
    exact result, leaving the proof that the result is in range. *)
Ltac exact_step :=
  let x := fresh "x" in
  let Hx := fresh "Hx" in
  match goal with
  | |- context [js_mul (Fin ?a) (Fin ?b)] =>
      destruct (js_mul_val (Fin a) (Fin b) a b (val_is_Fin a) (val_is_Fin b))
        as (x & -> & Hx)
  | |- context [js_sub (Fin ?a) (Fin ?b)] =>
      destruct (js_sub_val (Fin a) (Fin b) a b (val_is_Fin a) (val_is_Fin b))
        as (x & -> & Hx)
  | |- context [js_add (Fin ?a) (Fin ?b)] =>
      destruct (js_add_val (Fin a) (Fin b) a b (val_is_Fin a) (val_is_Fin b))
        as (x & -> & Hx)
  end.

(** Decide a comparison of two finite numbers, keeping the inequality. *)
Ltac compare_step :=
  let E := fresh "E" in
  match goal with
  | |- context [Qle_bool ?a ?b] =>
      destruct (Qle_bool a b) eqn:E;
      [apply Qle_bool_iff in E | apply Qle_bool_false in E]
  end.

Lemma paddedDomain_bounds (m M : Q) (lineStyle : LineStyle) :
  0 <= m → m <= M → M <= 1e308 →
  ∃ lo hi, paddedDomain (Fin m) (Fin M) lineStyle = (Fin lo, Fin hi)
           ∧ lo <= hi.
Proof.
  intros Hm HmM HM. pose proof MAX_VALUE_lower as HMAX.
  assert (1e308 == 10 * 1e307) as H308 by (by vm_compute).
  assert (100 <= 1e307) as H307 by (by vm_compute).
  unfold paddedDomain.
  unfold js_gt, Math_max. destruct lineStyle.
  all: repeat first
         [ exact_step; [apply in_range with 15e307; lra|]
         | progress cbn [js_lt negb orb isNaN isFinite]
         | compare_step ].
  all: first [ exfalso; lra | eexists _, _; split; [reflexivity | lra] ].
Qed.

Section Axis.

Context {engine : Engine}.

Lemma allValues_elem (dataToUse : list ProcessedDataPoint)
    (selectedVariations : list string) (v : value) :
  v ∈ allValues dataToUse selectedVariations ↔
  ∃ point key, point ∈ dataToUse ∧ key ∈ selectedVariations
               ∧ v = get point key ∧ collected v = true.
Proof.
  unfold allValues. rewrite list_elem_of_In, in_flat_map. split.
  - intros (point & Hpoint & Hv). apply in_flat_map in Hv as (key & Hkey & Hv).
    exists point, key. rewrite !list_elem_of_In.
    fold (collected (get point key)) in Hv.
    destruct (collected (get point key)) eqn:E; [|done].
    by destruct Hv as [<-|[]].
  - intros (point & key & Hpoint & Hkey & -> & Hc).
    exists point. rewrite <- list_elem_of_In. split; [done|].
    apply in_flat_map. exists key. rewrite <- list_elem_of_In. split; [done|].
    fold (collected (get point key)). rewrite Hc. by left.
Qed.

(** C9: when no field of the visible points under the selected keys is a
    finite number (as [isNaN] and [isFinite] read it), and so in particular
    without points or without keys, the domain is exactly [0, 100]. *)
Theorem computeDomain_default_without_finite_value
    (dataToUse : list ProcessedDataPoint) (selectedVariations : list string)
    (lineStyle : LineStyle) :
  (∀ point key, point ∈ dataToUse → key ∈ selectedVariations →
     isFinite (ToNumber (get point key)) = false) →
  computeDomain dataToUse selectedVariations lineStyle
  = (Fin 0, Fin 100).
Proof.
  intros Hnone. unfold computeDomain.
  destruct (allValues dataToUse selectedVariations)
    as [|v values] eqn:Hvalues; [done|].
  assert (v ∈ allValues dataToUse selectedVariations) as Hv
    by (rewrite Hvalues; by left).
  apply allValues_elem in Hv as (point & key & Hpoint & Hkey & -> & Hc).
  unfold collected in Hc. rewrite (Hnone point key Hpoint Hkey) in Hc.
  by rewrite andb_false_r in Hc.
Qed.

(** Where the domain is what it is meant to be: when the fields of the
    visible points under the selected keys are finite numbers between 0 and
    10^308, the domain is a pair of finite numbers [min <= max], in every
    line style. *)
Theorem computeDomain_finite_and_ordered
    (dataToUse : list ProcessedDataPoint) (selectedVariations : list string)
    (lineStyle : LineStyle) :
  (∀ point key v, point ∈ dataToUse → key ∈ selectedVariations →
     point !! key = Some v →
     ∃ q, v = VNum (Fin q) ∧ 0 <= q ∧ q <= 1e308) →
  ∃ min max : Q,
    computeDomain dataToUse selectedVariations lineStyle
    = (Fin min, Fin max)
    ∧ min <= max.
Proof.
  intros Hfields. unfold computeDomain.
  set (values := allValues dataToUse selectedVariations).
  assert (Forall (λ x, ∃ q, x = Fin q ∧ 0 <= q ∧ q <= 1e308)
                 (map (ToNumber) values)) as Hvalues.
  { apply Forall_fmap, Forall_forall. intros v Hv.
    apply allValues_elem in Hv as (point & key & Hpoint & Hkey & -> & Hc).
    unfold get in *. destruct (point !! key) as [v|] eqn:Hv; [|by cbv in Hc].
    destruct (Hfields point key v Hpoint Hkey Hv) as (q & -> & Hq).
    by exists q. }
  destruct values as [|v values]; cbn [length Nat.eqb].
  { exists 0, 100. by split. }
  destruct (Math_min_max_spread 0 1e308
              (map (ToNumber) (v :: values)))
    as (m & M & -> & -> & Hm0 & HmM & HM); [done..|].
  cbn [isNaN isFinite negb orb].
  by apply paddedDomain_bounds.
Qed.

(** The domain of the values 0 and 1.7 * 10^308 in 'line' mode, whatever
    the engine: the padded upper bound and its fallback both overflow. *)
Lemma computeDomain_huge_value :
  computeDomain [pointOf "2024-01-01" 0; pointOf "2024-01-02" 17e307]
    ["1"] line
  = (Fin 0, PInf).
Proof. by vm_compute. Qed.

End Axis.

(** ** Zoom and pan *)

Lemma rnd_not_NaN (q : Q) : isNaN (rnd q) = false.
Proof. unfold rnd. by repeat case_match. Qed.

(** Clamping anything but NaN to an interval gives a number of the
    interval. *)
Lemma clamp_range (x : num) (lo hi : Q) :
  isNaN x = false → lo <= hi →
  ∃ z, Math_max (Fin lo) (Math_min x (Fin hi)) = Fin z ∧ lo <= z ∧ z <= hi.
Proof.
  intros Hx Hle.
  assert (∀ c, val_is (Math_min x (Fin hi)) c → c <= hi →
            ∃ z, Math_max (Fin lo) (Math_min x (Fin hi)) = Fin z
                 ∧ lo <= z ∧ z <= hi) as Hfin.
  { intros c Hc Hchi.
    destruct (Math_max_val (Fin lo) _ lo c (val_is_Fin lo) Hc)
      as (z & (z' & -> & Hz') & Hlo & _ & Hz).
    exists z'. split; [done|]. destruct Hz; split; lra. }
  destruct x as [| | |q]; [done| | |].
  - apply (Hfin hi); [apply val_is_Fin | lra].
  - exists lo. split; [done | lra].
  - destruct (Math_min_val (Fin q) (Fin hi) q hi) as (c & Hc & _ & Hchi & _);
      [apply val_is_Fin..|].
    by apply (Hfin c).
Qed.

Lemma js_sub_pixel (x y : num) :
  pixel x → pixel y → ∃ d, js_sub x y = Fin d.
Proof.
  intros (a & -> & Ha) (b & -> & Hb).
  assert (2 * 1e300 <= MAX_VALUE) as Hmax by (by apply Qle_bool_imp_le).
  apply Qabs_Qle_condition in Ha, Hb.
  destruct (js_sub_val (Fin a) (Fin b) a b) as (d & Hd & _);
    [apply val_is_Fin.. | | by exists d].
  apply in_range with (2 * 1e300); lra.
Qed.

Lemma js_div_not_NaN (x : num) (w : Q) :
  isNaN x = false → 0 < w → isNaN (js_div x (Fin w)) = false.
Proof.
  intros Hx Hw. destruct x as [| | |a]; [done| | |]; cbn [js_div].
  - assert (Qle_bool 0 w = true) as -> by (apply Qle_bool_iff; lra). done.
  - assert (Qle_bool 0 w = true) as -> by (apply Qle_bool_iff; lra). done.
  - assert (Qeq_bool w 0 = false) as -> by (apply Qeq_bool_false; lra).
    apply rnd_not_NaN.
Qed.

Lemma js_mul_not_NaN (x : num) (c : Q) :
  isNaN x = false → 0 < c → isNaN (js_mul x (Fin c)) = false.
Proof.
  intros Hx Hc. destruct x as [| | |a]; [done| | |]; cbn [js_mul].
  - apply Qgt_alt in Hc as ->. done.
  - apply Qgt_alt in Hc as ->. done.
  - apply rnd_not_NaN.
Qed.

Lemma js_add_not_NaN (a : Q) (y : num) :
  isNaN y = false → isNaN (js_add (Fin a) y) = false.
Proof.
  intros Hy. destruct y as [| | |b]; [done..|]. apply rnd_not_NaN.
Qed.

(** The offset a pan move requests lies between 0 and the largest offset
    of the series. *)
Lemma pan_move_offset (totalPoints : nat) (z p : Q) (delta chartWidth : Q) :
  (Z.of_nat totalPoints < 2 ^ 32)%Z → 1 < z → 1 <= chartWidth →
  let totalPoints' := ofNat totalPoints in
  let visiblePoints := Math_floor (js_div totalPoints' (Fin z)) in
  let maxOffset := Math_max (Fin 0) (js_sub totalPoints' visiblePoints) in
  let newOffset :=
    js_add (Fin p) (js_mul (Fin delta) (js_div maxOffset (Fin chartWidth))) in
  ∃ (v : Z) (p' : Q),
    visiblePoints = Fin (inject_Z v)
    ∧ (0 ≤ v ≤ Z.of_nat totalPoints)%Z
    ∧ Math_max (Fin 0) (Math_min newOffset maxOffset) = Fin p'
    ∧ 0 <= p' ∧ p' <= inject_Z (Z.of_nat totalPoints - v).
Proof.
  intros Hn Hz Hw. cbv zeta.
  destruct (visiblePoints_floor totalPoints z Hn Hz) as (-> & Hv & _).
  set (v := Qfloor (inject_Z (Z.of_nat totalPoints) / z)) in *.
  unfold ofNat. rewrite js_sub_int by lia.
  change (Fin 0) with (Fin (inject_Z 0)). rewrite Math_max_int.
  replace (0 `max` (Z.of_nat totalPoints - v))%Z
    with (Z.of_nat totalPoints - v)%Z by lia.
  set (m := (Z.of_nat totalPoints - v)%Z).
  assert (0 <= inject_Z m) as Hm0 by (rewrite <- (Zle_Qle 0); lia).
  assert (inject_Z m <= inject_Z (2 ^ 32)) as Hm1 by (rewrite <- Zle_Qle; lia).
  destruct (js_div_val (Fin (inject_Z m)) (Fin chartWidth) (inject_Z m)
              chartWidth) as (r & -> & Hr); [apply val_is_Fin.. | lra | |].
  { assert (0 <= inject_Z m / chartWidth
            ∧ inject_Z m / chartWidth <= inject_Z m) as [? ?].
    { split; [apply Qle_shift_div_l; lra|].
      apply Qle_shift_div_r; [lra|]. nra. }
    apply in_range with (inject_Z (2 ^ 32)); [lra | lra | done]. }
  destruct (clamp_range (js_add (Fin p) (js_mul (Fin delta) (Fin r)))
              0 (inject_Z m)) as (p' & Hp' & Hp0 & Hp1); [|done|].
  { apply js_add_not_NaN, rnd_not_NaN. }
  exists v, p'. change (Fin (inject_Z 0)) with (Fin 0).
  split_and!; [done | lia | lia | done | done | done].
Qed.

Ltac solve_steady :=
  first [ done | lra | intros; lra
        | match goal with H : _ ∨ _ |- _ => destruct H; lra end ].

Lemma handleEvent_steady (s : ChartState) (e : ChartEvent) :
  wellFormed e → steady s → pixel (panStart s) →
  steady (handleEvent s e) ∧ pixel (panStart (handleEvent s e)).
Proof.
  intros He (z & p & Hz & Hp & Hz1 & Hz5 & Hp0 & Hzp) Hstart.
  assert (steady s) as Hs by (by exists z, p).
  destruct s as [zl po ip ds ps]. cbn [zoomLevel panOffset panStart] in *.
  subst zl po.
  destruct e as [| | |x l w|x|x ctl|x track n cw|]; cbn [handleEvent zoomLevel].
  - (* zoom in *)
    destruct (js_ge _ _); [done|]. split; [|done].
    unfold handleZoomIn. cbn [zoomLevel setZoomLevel setPanOffset].
    destruct (js_add_val (Fin z) (Fin 0.5) z 0.5) as (a & Ha & Haz);
      [apply val_is_Fin.. | apply in_range with 6; [lra | lra | done] |].
    rewrite Ha.
    destruct (Math_min_val (Fin a) (Fin 5) a 5)
      as (c & (c' & Hc & Hc') & ? & ? & Hor); [apply val_is_Fin..|].
    exists c', 0. cbn [zoomLevel panOffset]. rewrite Hc.
    split_and!; solve_steady.
  - (* zoom out *)
    destruct (js_le _ _); [done|].
    split; [|unfold handleZoomOut; by destruct (js_eq _ _)].
    unfold handleZoomOut. cbn [zoomLevel].
    destruct (js_sub_val (Fin z) (Fin 0.5) z 0.5) as (a & Ha & Haz);
      [apply val_is_Fin.. | apply in_range with 6; [lra | lra | done] |].
    rewrite Ha.
    destruct (Math_max_val (Fin a) (Fin 1) a 1)
      as (c & (c' & Hc & Hc') & ? & ? & Hor); [apply val_is_Fin..|].
    rewrite Hc. cbn [js_eq].
    destruct (Qeq_bool c' 1) eqn:E.
    + exists c', 0. split_and!; solve_steady.
    + apply Qeq_bool_false in E. exists c', p.
      split_and!; solve_steady.
  - (* reset *)
    destruct (js_eq _ _); [done|]. split; [|done].
    exists 1, 0. split_and!; solve_steady.
  - (* click on the track *)
    destruct He as (Hx & Hl & (w' & -> & Hw)). split; [|done].
    unfold zoomTrackClick.
    destruct (js_sub_pixel x l Hx Hl) as (d & ->).
    destruct (clamp_range
                (js_add (Fin 1) (js_mul (js_div (Fin d) (Fin w')) (Fin 4)))
                1 5) as (c & Hc & Hc1 & Hc5); [|done|].
    { apply js_add_not_NaN, js_mul_not_NaN; [|done].
      by apply js_div_not_NaN. }
    exists c, 0. cbn [zoomLevel panOffset setZoomLevel setPanOffset].
    split_and!; solve_steady.
  - (* mouse down on the thumb *)
    split; [by exists z, p | done].
  - (* mouse down on the chart *)
    unfold handleChartMouseDown. cbn [zoomLevel].
    destruct (_ && _); [|done]. split; [by exists z, p | done].
  - (* mouse move *)
    destruct ip; [|done].
    destruct He as (Hx & Htrack & Hn & Hcw).
    split; [|done].
    unfold handleGlobalMouseMove.
    cbn [isDraggingSlider panStart zoomLevel panOffset].
    destruct (js_sub_pixel ps x Hstart Hx) as (delta & ->).
    assert (∀ s', steady s' → steady (setPanStart x s')) as Hset.
    { intros s' (z' & p' & ?). by exists z', p'. }
    apply Hset.
    assert (steady
      (if js_gt (Fin z) (Fin 1)
       then
        let totalPoints := ofNat n in
        let visiblePoints := Math_floor (js_div totalPoints (Fin z)) in
        let maxOffset := Math_max (Fin 0) (js_sub totalPoints visiblePoints) in
        let chartWidth :=
          match cw with
          | Some w => if truthy w then w else Fin 800
          | None => Fin 800
          end in
        let pixelToDataRatio := js_div maxOffset chartWidth in
        let newOffset := js_add (Fin p) (js_mul (Fin delta) pixelToDataRatio) in
        setPanOffset (Math_max (Fin 0) (Math_min newOffset maxOffset))
          {| zoomLevel := Fin z; panOffset := Fin p; isPanning := true;
             isDraggingSlider := ds; panStart := ps |}
       else {| zoomLevel := Fin z; panOffset := Fin p; isPanning := true;
               isDraggingSlider := ds; panStart := ps |})) as Hpan.
    { destruct (js_gt (Fin z) (Fin 1)) eqn:Egt; [|done].
      apply (js_lt_val (Fin 1) (Fin z) 1 z) in Egt; [|apply val_is_Fin..].
      assert (∃ c, match cw with
                   | Some w => if truthy w then w else Fin 800
                   | None => Fin 800
                   end = Fin c ∧ 1 <= c) as (c & -> & Hc).
      { destruct cw as [w|]; [|by exists 800].
        destruct Hcw as (k & -> & Hk). cbn [truthy].
        destruct (Qeq_bool (inject_Z k) 0) eqn:E; cbn [negb]; [by exists 800|].
        apply Qeq_bool_false in E. exists (inject_Z k). split; [done|].
        change 1 with (inject_Z 1). rewrite <- Zle_Qle.
        assert (k ≠ 0)%Z; [|lia]. intros ->. by apply E. }
      destruct (pan_move_offset n z p delta c Hn Egt Hc)
        as (v & p' & _ & _ & Hp' & Hp'0 & _).
      cbv zeta. rewrite Hp'. exists z, p'.
      split_and!; solve_steady. }
    destruct ds; [|done]. destruct track as [[l w]|]; [|done].
    destruct Htrack as (Hl & (w' & -> & Hw)).
    destruct (js_sub_pixel x l Hx Hl) as (d & ->).
    destruct (clamp_range (js_div (Fin d) (Fin w')) 0 1)
      as (c & -> & Hc0 & Hc1); [by apply js_div_not_NaN | done |].
    destruct (js_mul_val (Fin c) (Fin 4) c 4) as (a & -> & Ha);
      [apply val_is_Fin.. | apply in_range with 4; [lra | lra | done] |].
    destruct (js_add_val (Fin 1) (Fin a) 1 a) as (b & Hb & Hb');
      [apply val_is_Fin.. | apply in_range with 5; [lra | lra | done] |].
    rewrite Hb. exists b, 0.
    cbn [zoomLevel panOffset setZoomLevel setPanOffset].
    split_and!; solve_steady.
  - (* mouse up *)
    destruct ip; [|done]. split; [by exists z, p | done].
Qed.

Lemma foldl_handleEvent_steady (events : list ChartEvent) (s : ChartState) :
  Forall wellFormed events → steady s → pixel (panStart s) →
  steady (foldl handleEvent s events).
Proof.
  intros Hev. revert s.
  induction Hev as [|e events He _ IH]; intros s Hs Hstart; [done|].
  cbn [foldl].
  destruct (handleEvent_steady s e He Hs Hstart) as [Hs' Hstart'].
  by apply IH.
Qed.

(** X1: from the initial state, after any sequence of events of the zoom
    buttons, the zoom track, its thumb and the mouse on the chart (events
    as [wellFormed] describes them), the zoom level is a finite number
    between 1 and 5, the pan offset is a finite number that is not
    negative, and at zoom level 1 the pan offset is 0. *)
Theorem zoom_and_pan_stay_in_range (events : list ChartEvent) :
  Forall wellFormed events →
  ∃ z p : Q,
    zoomLevel (foldl handleEvent initialState events) = Fin z
    ∧ panOffset (foldl handleEvent initialState events) = Fin p
    ∧ 1 <= z ∧ z <= 5 ∧ 0 <= p ∧ (z == 1 → p == 0).
Proof.
  intros Hev. apply (foldl_handleEvent_steady events initialState Hev).
  - exists 1, 0. by split_and!.
  - exists 0. by split.
Qed.

(** ** The visible window, continued *)

Lemma visibleDataRange_shape (totalPoints : nat) (z p : Q) :
  (Z.of_nat totalPoints < 2 ^ 32)%Z → 1 < z →
  ∃ v s : Z,
    Math_floor (js_div (ofNat totalPoints) (Fin z)) = Fin (inject_Z v)
    ∧ (0 ≤ v ≤ Z.of_nat totalPoints)%Z
    ∧ (inject_Z (Z.of_nat totalPoints) < z → v = 0%Z)
    ∧ s = (0 `max` (Qfloor p `min` (Z.of_nat totalPoints - v)))%Z
    ∧ visibleDataRange (Fin z) (Fin p) totalPoints
      = Some (Fin (inject_Z s), Fin (inject_Z (s + v - 1))).
Proof.
  intros Hn Hz.
  destruct (visiblePoints_floor totalPoints z Hn Hz) as (Hv & Hv0 & _).
  set (v := Qfloor (inject_Z (Z.of_nat totalPoints) / z)) in *.
  set (M := (Z.of_nat totalPoints - v)%Z).
  exists v, (0 `max` (Qfloor p `min` M))%Z.
  split; [done|]. split; [done|]. split.
  { intros Hlt.
    assert (0 <= inject_Z (Z.of_nat totalPoints)) as HN0
      by (rewrite <- (Zle_Qle 0); lia).
    assert (inject_Z (Z.of_nat totalPoints) / z < 1) as H1.
    { apply Qlt_shift_div_r; lra. }
    assert (v < 1)%Z; [|lia].
    destruct (Z.lt_ge_cases v 1) as [|Hge]; [done|]. exfalso.
    pose proof (Qfloor_le (inject_Z (Z.of_nat totalPoints) / z)) as Hfl.
    fold v in Hfl. rewrite Zle_Qle in Hge. change (inject_Z 1) with 1 in Hge.
    lra. }
  split; [done|].
  unfold visibleDataRange.
  assert (js_le (Fin z) (Fin 1) = false) as ->.
  { simpl. by apply Qle_bool_false. }
  rewrite Hv. unfold ofNat.
  rewrite js_sub_int by lia.
  change (Fin 0) with (Fin (inject_Z 0)). rewrite Math_max_int.
  change (Fin 1) with (Fin (inject_Z 1)).
  replace (0 `max` (Z.of_nat totalPoints - v))%Z with M by lia.
  assert (0 ≤ M)%Z as HM0 by lia.
  assert (0 <= inject_Z M) as HM0' by (rewrite <- (Zle_Qle 0); lia).
  destruct (Math_min_val (Fin p) (Fin (inject_Z M)) p (inject_Z M))
    as (c1 & Hc1 & Hc1p & Hc1m & Hc1or); [apply val_is_Fin..|].
  destruct (Math_max_val (Fin (inject_Z 0)) _ 0 c1 (val_is_Fin _) Hc1)
    as (c & (c' & -> & Hc') & Hc0 & Hcc1 & Hc).
  simpl Math_floor.
  assert (Qfloor c' = (0 `max` (Qfloor p `min` M))%Z) as ->.
  { rewrite Hc'.
    pose proof (Qfloor_resp_le _ _ Hc1p) as Hf1.
    pose proof (Qfloor_resp_le _ _ Hc1m) as Hf2. rewrite Qfloor_Z in Hf2.
    destruct Hc as [Hc | Hc]; rewrite Hc.
    - change 0 with (inject_Z 0). rewrite Qfloor_Z.
      assert (c1 <= 0) as Hle by lra.
      apply Qfloor_resp_le in Hle. change 0 with (inject_Z 0) in Hle.
      rewrite Qfloor_Z in Hle.
      destruct Hc1or as [H1 | H1]; rewrite H1 in Hle.
      + lia.
      + rewrite Qfloor_Z in Hle. lia.
    - assert (0 <= c1) as Hge by lra.
      apply Qfloor_resp_le in Hge. change 0 with (inject_Z 0) in Hge.
      rewrite Qfloor_Z in Hge.
      destruct Hc1or as [H1 | H1]; rewrite H1 in *.
      + lia.
      + rewrite Qfloor_Z in *.
        assert (inject_Z M <= p) as Hmp by lra.
        apply Qfloor_resp_le in Hmp. rewrite Qfloor_Z in Hmp. lia. }
  set (s := (0 `max` (Qfloor p `min` M))%Z).
  rewrite js_add_int, !js_sub_int, Math_min_int by lia.
  replace ((s + v - 1) `min` (Z.of_nat totalPoints - 1))%Z
    with (s + v - 1)%Z by lia.
  done.
Qed.

(** X2: at a zoom level above 1 the window holds exactly the number of
    points the code computes as [Math.floor(totalPoints / zoomLevel)],
    wherever the chart is panned: [endIndex - startIndex + 1] is that
    number, none when it is 0, and the window never starts before index 0
    nor ends after the last point. *)
Theorem visibleDataRange_shows_visiblePoints
    (totalPoints : nat) (zoomLevel panOffset : Q) :
  (Z.of_nat totalPoints < 2 ^ 32)%Z → 1 < zoomLevel →
  ∃ visiblePoints startIndex endIndex : Z,
    Math_floor (js_div (ofNat totalPoints) (Fin zoomLevel))
    = Fin (inject_Z visiblePoints)
    ∧ visibleDataRange (Fin zoomLevel) (Fin panOffset) totalPoints
      = Some (Fin (inject_Z startIndex), Fin (inject_Z endIndex))
    ∧ (endIndex - startIndex + 1 = visiblePoints)%Z
    ∧ (0 ≤ startIndex)%Z ∧ (endIndex ≤ Z.of_nat totalPoints - 1)%Z.
Proof.
  intros Hn Hz.
  destruct (visibleDataRange_shape totalPoints zoomLevel panOffset Hn Hz)
    as (v & s & Hv & Hv0 & _ & Hs & Hrange).
  exists v, s, (s + v - 1)%Z. split_and!; [done | done | lia..].
Qed.

(** X3: what the pan offset does to the window: an offset of 0 or less
    shows the first points, an offset between 0 and
    [totalPoints - visiblePoints] starts the window at the integer part of
    the offset, and a larger offset shows the last points, ending at
    [totalPoints - 1]. *)
Theorem visibleDataRange_pan_regimes
    (totalPoints : nat) (zoomLevel panOffset : Q) :
  (Z.of_nat totalPoints < 2 ^ 32)%Z → 1 < zoomLevel →
  ∃ visiblePoints startIndex endIndex : Z,
    Math_floor (js_div (ofNat totalPoints) (Fin zoomLevel))
    = Fin (inject_Z visiblePoints)
    ∧ visibleDataRange (Fin zoomLevel) (Fin panOffset) totalPoints
      = Some (Fin (inject_Z startIndex), Fin (inject_Z endIndex))
    ∧ (panOffset <= 0 → startIndex = 0%Z)
    ∧ (0 <= panOffset →
       panOffset <= inject_Z (Z.of_nat totalPoints - visiblePoints) →
       startIndex = Qfloor panOffset)
    ∧ (inject_Z (Z.of_nat totalPoints - visiblePoints) <= panOffset →
       startIndex = (Z.of_nat totalPoints - visiblePoints)%Z
       ∧ endIndex = (Z.of_nat totalPoints - 1)%Z).
Proof.
  intros Hn Hz.
  destruct (visibleDataRange_shape totalPoints zoomLevel panOffset Hn Hz)
    as (v & s & Hv & Hv0 & _ & Hs & Hrange).
  exists v, s, (s + v - 1)%Z. split_and!; [done | done | | |].
  - intros Hp. apply Qfloor_resp_le in Hp.
    change 0 with (inject_Z 0) in Hp. rewrite Qfloor_Z in Hp. lia.
  - intros Hp0 Hp1. apply Qfloor_resp_le in Hp0, Hp1.
    change 0 with (inject_Z 0) in Hp0. rewrite Qfloor_Z in Hp0, Hp1. lia.
  - intros Hp. apply Qfloor_resp_le in Hp. rewrite Qfloor_Z in Hp. lia.
Qed.

(** X4: panning further never moves the window back: with a larger pan
    offset, the first and the last visible index are at least what they
    were. *)
Theorem visibleDataRange_monotone_in_pan
    (totalPoints : nat) (zoomLevel panOffset panOffset' : Q) :
  (Z.of_nat totalPoints < 2 ^ 32)%Z → 1 < zoomLevel →
  panOffset <= panOffset' →
  ∃ startIndex endIndex startIndex' endIndex' : Z,
    visibleDataRange (Fin zoomLevel) (Fin panOffset) totalPoints
    = Some (Fin (inject_Z startIndex), Fin (inject_Z endIndex))
    ∧ visibleDataRange (Fin zoomLevel) (Fin panOffset') totalPoints
      = Some (Fin (inject_Z startIndex'), Fin (inject_Z endIndex'))
    ∧ (startIndex ≤ startIndex')%Z ∧ (endIndex ≤ endIndex')%Z.
Proof.
  intros Hn Hz Hp.
  destruct (visibleDataRange_shape totalPoints zoomLevel panOffset Hn Hz)
    as (v & s & Hv & Hv0 & _ & Hs & Hrange).
  destruct (visibleDataRange_shape totalPoints zoomLevel panOffset' Hn Hz)
    as (v' & s' & Hv' & _ & _ & Hs' & Hrange').
  assert (v' = v) as -> by (rewrite Hv in Hv'; by injection Hv').
  apply Qfloor_resp_le in Hp.
  exists s, (s + v - 1)%Z, s', (s' + v - 1)%Z.
  split_and!; [done | done | lia | lia].
Qed.

(** ** Slices *)

Lemma sliceIndex_int (len : nat) (k : Z) :
  (0 ≤ k)%Z →
  sliceIndex len (Fin (inject_Z k)) = Z.to_nat (k `min` Z.of_nat len).
Proof.
  intros Hk. unfold sliceIndex.
  assert (Qle_bool 0 (inject_Z k) = true) as ->.
  { apply Qle_bool_iff. by rewrite <- (Zle_Qle 0). }
  rewrite Qfloor_Z.
  assert ((k <? 0)%Z = false) as -> by lia. done.
Qed.

(** The slice a window of integer indices takes. *)
Lemma Array_slice_window {A : Type} (l : list A) (s e : Z) :
  (Z.of_nat (length l) < 2 ^ 32)%Z →
  (0 ≤ s)%Z → (s ≤ e + 1)%Z → (e < Z.of_nat (length l))%Z →
  Array_slice l (Fin (inject_Z s)) (js_add (Fin (inject_Z e)) (Fin 1))
  = take (Z.to_nat (e + 1 - s)) (drop (Z.to_nat s) l).
Proof.
  intros Hlen Hs Hse He.
  unfold Array_slice. change (Fin 1) with (Fin (inject_Z 1)).
  rewrite js_add_int by lia. rewrite !sliceIndex_int by lia.
  f_equal; [lia | f_equal; lia].
Qed.

Section Display.

Context {engine : Engine}.

Lemma computeRate_finite (c v : num) : ∃ q, computeRate c v = Fin q.
Proof.
  unfold computeRate.
  destruct (Number_toFixed2 _) as [| | |q]; by eexists.
Qed.

Lemma weekValue_finite (week : list ProcessedDataPoint) (key : string) :
  ∃ q, weekValue week key = Fin q.
Proof.
  unfold weekValue.
  destruct (Number_toFixed2 _) as [| | |q]; by eexists.
Qed.

Lemma cleaned_finite (v : value) : ∃ q, cleaned v = Fin q.
Proof.
  unfold cleaned. destruct (ToNumber v) as [| | |q]; cbn; try by eexists.
  destruct v; by eexists.
Qed.

(** A weekly point is built from a chunk of at most seven points of the
    day series. *)
Lemma elem_of_aggregateByWeek (data : list ProcessedDataPoint)
    (point : ProcessedDataPoint) :
  point ∈ aggregateByWeek data →
  ∃ first rest,
    point = weekPoint first (first :: rest)
    ∧ (length (first :: rest) ≤ 7)%nat
    ∧ ∀ p, p ∈ first :: rest → p ∈ data.
Proof.
  intros (j & Hj)%list_elem_of_lookup_1.
  destruct (aggregateByWeek_lookup data j) as (first & rest & Hchunk & Hpoint).
  { by eapply lookup_lt_Some. }
  exists first, rest. split_and!; [congruence | |].
  - rewrite <- Hchunk, length_take. lia.
  - intros p Hp. rewrite <- Hchunk in Hp. by eapply elem_of_take_drop.
Qed.

Lemma weekPoint_dom (first : ProcessedDataPoint)
    (rest : list ProcessedDataPoint) :
  dom (weekPoint first (first :: rest))
  = {["date"]} ∪ (dom first ∖ {["__proto__"]}).
Proof.
  apply set_eq. intros key.
  rewrite elem_of_dom, weekPoint_lookup, elem_of_union, elem_of_singleton,
    elem_of_difference, elem_of_dom, elem_of_singleton.
  destruct (decide (key = "date")) as [->|Hne]; [by split; [left | eexists]|].
  destruct (decide (is_Some (first !! key))) as [Hsome|Hnone].
  - destruct (decide (key = "__proto__")) as [->|Hproto].
    + split; [by intros [? ?] | by intros [?|[_ ?]]].
    + split; [by right | by eexists].
  - split; [by intros [? ?] | by intros [?|[? _]]].
Qed.

(** Every point of a series has the date and the selected keys other than
    "__proto__", and no other key. *)
Lemma processData_dom (chartData : ChartData)
    (selectedVariations : list string) (timeRange : TimeRange) :
  Forall (λ point : ProcessedDataPoint,
            dom point
            = {["date"]} ∪ (list_to_set selectedVariations ∖ {["__proto__"]}))
         (processData chartData selectedVariations timeRange).
Proof.
  assert (Forall (λ point : ProcessedDataPoint,
                    dom point
                    = {["date"]}
                      ∪ (list_to_set selectedVariations ∖ {["__proto__"]}))
                 (map (dayPoint selectedVariations) (data chartData)))
    as Hdays.
  { apply Forall_fmap, Forall_forall. intros dataPoint _.
    apply dayPoint_dom. }
  unfold processData. destruct timeRange; [done|].
  apply Forall_forall. intros point Hpoint.
  apply elem_of_aggregateByWeek in Hpoint as (first & rest & -> & _ & Hin).
  rewrite weekPoint_dom.
  rewrite Forall_forall in Hdays. rewrite (Hdays first) by (apply Hin; by left).
  apply set_eq. intros key.
  rewrite !elem_of_union, !elem_of_difference, elem_of_union,
    elem_of_difference, !elem_of_singleton.
  tauto.
Qed.

(** Under every selected key other than "date" and "__proto__" a point of
    a series holds a finite number. *)
Lemma processData_finite (chartData : ChartData)
    (selectedVariations : list string) (timeRange : TimeRange) :
  Forall (λ point : ProcessedDataPoint,
            ∀ key, key ∈ selectedVariations →
                   key ≠ "date" → key ≠ "__proto__" →
                   ∃ q, point !! key = Some (VNum (Fin q)))
         (processData chartData selectedVariations timeRange).
Proof.
  assert (Forall (λ point : ProcessedDataPoint,
                    ∀ key, key ∈ selectedVariations → key ≠ "__proto__" →
                           ∃ q, point !! key = Some (VNum (Fin q)))
                 (map (dayPoint selectedVariations) (data chartData)))
    as Hdays.
  { apply Forall_fmap, Forall_forall. intros dataPoint _ key Hkey Hproto. cbn.
    rewrite dayPoint_lookup.
    rewrite (decide_True (P := key ∈ selectedVariations)) by done.
    rewrite (decide_False (P := key = "__proto__")) by done.
    unfold dayValue.
    destruct (computeRate_finite (orZero (conversions dataPoint !! key))
                                 (orZero (visits dataPoint !! key)))
      as (q & ->).
    by exists q. }
  unfold processData. destruct timeRange.
  - eapply Forall_impl; [exact Hdays|]. cbv beta. eauto.
  - apply Forall_forall. intros point Hpoint key Hkey Hdate Hproto.
    apply elem_of_aggregateByWeek in Hpoint as (first & rest & -> & _ & Hin).
    rewrite weekPoint_lookup.
    rewrite (decide_False (P := key = "date")) by done.
    rewrite Forall_forall in Hdays.
    destruct (Hdays first (Hin first ltac:(by left)) key Hkey Hproto)
      as (q0 & Hq0).
    rewrite (decide_True (P := is_Some (first !! key))) by (by eexists).
    rewrite (decide_False (P := key = "__proto__")) by done.
    destruct (weekValue_finite (first :: rest) key) as (q & ->).
    by exists q.
Qed.

(** X5: whatever the records hold (missing keys, NaN, infinities, negative
    numbers) and for both time ranges, every point [processData] returns
    has exactly the keys "date" and the selected ones other than
    "__proto__" (a number assigned to that key is not stored), and under
    every selected key other than "date" and "__proto__" it holds a finite
    number. *)
Theorem processData_point_shape (chartData : ChartData)
    (selectedVariations : list string) (timeRange : TimeRange) :
  Forall (λ point : ProcessedDataPoint,
            dom point
            = {["date"]} ∪ (list_to_set selectedVariations ∖ {["__proto__"]})
            ∧ ∀ key, key ∈ selectedVariations →
                     key ≠ "date" → key ≠ "__proto__" →
                     ∃ q, point !! key = Some (VNum (Fin q)))
         (processData chartData selectedVariations timeRange).
Proof.
  pose proof (processData_dom chartData selectedVariations timeRange) as Hdom.
  pose proof (processData_finite chartData selectedVariations timeRange)
    as Hfinite.
  rewrite Forall_forall in Hdom, Hfinite. apply Forall_forall.
  intros point Hpoint. split; [by apply Hdom | by apply Hfinite].
Qed.

Lemma append_nonempty (a b : string) : b ≠ "" → a +:+ b ≠ "".
Proof. intros Hb. by destruct a. Qed.

(** The date entry of a processed point is a string, and a non-empty one
    when the records are dated. *)
Lemma processData_dates (chartData : ChartData)
    (selectedVariations : list string) (timeRange : TimeRange) :
  "date" ∉ selectedVariations →
  Forall (λ point : ProcessedDataPoint,
            ∃ d, point !! "date" = Some (VStr d)
                 ∧ (datedRecords chartData → d ≠ ""))
         (processData chartData selectedVariations timeRange).
Proof.
  intros Hdate.
  assert (Forall (λ point : ProcessedDataPoint,
                    ∃ d, point !! "date" = Some (VStr d)
                         ∧ (datedRecords chartData → d ≠ ""))
                 (map (dayPoint selectedVariations) (data chartData)))
    as Hdays.
  { apply Forall_fmap, Forall_forall. intros dataPoint Hin. cbn.
    exists (date dataPoint).
    rewrite dayPoint_lookup.
    rewrite (decide_False (P := "date" ∈ selectedVariations)) by done.
    rewrite (decide_True (P := "date" = "date")) by done.
    split; [done|]. intros Hdated. by apply Hdated. }
  unfold processData. destruct timeRange; [done|].
  apply Forall_forall. intros point Hpoint.
  apply elem_of_aggregateByWeek in Hpoint as (first & rest & -> & _ & Hin).
  rewrite weekPoint_lookup, decide_True by done.
  rewrite Forall_forall in Hdays.
  destruct rest as [|second rest].
  - cbn [weekLabel]. unfold get.
    destruct (Hdays first (Hin first ltac:(by left))) as (d & -> & Hd).
    by exists d.
  - eexists. split; [reflexivity|]. intros _.
    by apply append_nonempty.
Qed.

Lemma cleanPoint_cleaned (keys : list string) (point : ProcessedDataPoint) :
  cleanPoint keys point
  = foldl (λ (m : ProcessedDataPoint) key,
             setField key (VNum (cleaned (get point key))) m)
          {[ "date" := get point "date" ]} keys.
Proof. reflexivity. Qed.

Lemma cleanPoint_lookup (keys : list string) (point : ProcessedDataPoint)
    (key : string) :
  cleanPoint keys point !! key =
    if decide (key ∈ keys)
    then if decide (key = "__proto__") then None
         else Some (VNum (cleaned (get point key)))
    else if decide (key = "date") then Some (get point "date")
    else None.
Proof.
  rewrite cleanPoint_cleaned.
  rewrite (foldl_setField_lookup (λ key, VNum (cleaned (get point key)))).
  destruct (decide (key ∈ keys)).
  - by destruct (decide (key = "__proto__")) as [->|Hne].
  - destruct (decide (key = "date")) as [->|Hne].
    + by rewrite lookup_singleton_eq.
    + by rewrite lookup_singleton_ne.
Qed.

(** X6: whatever the processed points hold and whatever the window is,
    every point handed to the chart has exactly the keys "date" and the
    selected ones other than "__proto__" (a number assigned to that key is
    not stored) and holds a finite number under every selected key other
    than "__proto__"; unless "date" is a selected key, its date is truthy
    (so never the empty string). *)
Theorem displayData_values_finite (processedData : list ProcessedDataPoint)
    (visibleDataRange : option (num * num))
    (selectedVariations : list string) :
  Forall (λ point : ProcessedDataPoint,
            dom point
            = {["date"]} ∪ (list_to_set selectedVariations ∖ {["__proto__"]})
            ∧ (∀ key, key ∈ selectedVariations → key ≠ "__proto__" →
                 ∃ q, point !! key = Some (VNum (Fin q)))
            ∧ ("date" ∉ selectedVariations →
                 ∃ v, point !! "date" = Some v ∧ truthyValue v = true))
         (displayData processedData visibleDataRange selectedVariations).
Proof.
  unfold displayData. apply Forall_fmap, Forall_forall.
  intros point Hpoint. apply list_elem_of_filter in Hpoint as [Hdate _].
  cbn. split; [|split].
  - rewrite cleanPoint_cleaned.
    by rewrite (foldl_setField_dom (λ key, VNum (cleaned (get point key)))),
      dom_singleton_L.
  - intros key Hkey Hproto. rewrite cleanPoint_lookup.
    rewrite (decide_True (P := key ∈ selectedVariations)) by done.
    rewrite (decide_False (P := key = "__proto__")) by done.
    destruct (cleaned_finite (get point key)) as (q & ->). by exists q.
  - intros Hnot. rewrite cleanPoint_lookup.
    rewrite (decide_False (P := "date" ∈ selectedVariations)) by done.
    rewrite (decide_True (P := "date" = "date")) by done.
    by eexists.
Qed.

(** On a point as [processData] builds it, with a non-empty date,
    [displayData] changes nothing. *)
Lemma cleanPoint_id (keys : list string) (point : ProcessedDataPoint) :
  "date" ∉ keys →
  dom point = {["date"]} ∪ (list_to_set keys ∖ {["__proto__"]}) →
  (∀ key, key ∈ keys → key ≠ "__proto__" →
     ∃ q, point !! key = Some (VNum (Fin q))) →
  is_Some (point !! "date") →
  cleanPoint keys point = point.
Proof.
  intros Hdate Hdom Hvalues [d Hd]. apply map_eq. intros key.
  rewrite cleanPoint_lookup.
  destruct (decide (key ∈ keys)) as [Hin|Hnin].
  - destruct (decide (key = "__proto__")) as [->|Hproto].
    + symmetry. apply not_elem_of_dom. rewrite Hdom.
      rewrite elem_of_union, elem_of_difference, !elem_of_singleton.
      by intros [?|[_ ?]].
    + destruct (Hvalues key Hin Hproto) as (q & Hq). unfold get.
      by rewrite Hq.
  - destruct (decide (key = "date")) as [->|Hne].
    + unfold get. by rewrite Hd.
    + symmetry. apply not_elem_of_dom. rewrite Hdom.
      rewrite elem_of_union, elem_of_difference, elem_of_singleton,
        elem_of_list_to_set.
      tauto.
Qed.

Lemma displayed_unchanged (keys : list string)
    (points : list ProcessedDataPoint) :
  Forall (λ point, cleanPoint keys point = point
                   ∧ truthyValue (get point "date") = true) points →
  map (cleanPoint keys)
      (filter (λ point, truthyValue (get point "date") = true) points)
  = points.
Proof.
  induction 1 as [|point points [Hclean Hdate] _ IH]; [done|].
  rewrite filter_cons_True by done. cbn [map]. by rewrite Hclean, IH.
Qed.

Lemma processData_displayed_unchanged (chartData : ChartData)
    (selectedVariations : list string) (timeRange : TimeRange) :
  datedRecords chartData → "date" ∉ selectedVariations →
  Forall (λ point, cleanPoint selectedVariations point = point
                   ∧ truthyValue (get point "date") = true)
         (processData chartData selectedVariations timeRange).
Proof.
  intros Hdated Hdate.
  pose proof (processData_dom chartData selectedVariations timeRange)
    as Hkeys.
  pose proof (processData_finite chartData selectedVariations timeRange)
    as Hvalues.
  pose proof (processData_dates chartData selectedVariations timeRange Hdate)
    as Hdates.
  rewrite Forall_forall in Hkeys, Hvalues, Hdates.
  apply Forall_forall. intros point Hpoint.
  destruct (Hdates point Hpoint) as (d & Hd & Hne).
  split.
  - apply cleanPoint_id; [done | by apply Hkeys | | by eexists].
    intros key Hkey Hproto.
    apply (Hvalues point Hpoint key Hkey); [by intros -> | done].
  - unfold get. rewrite Hd. cbn. apply bool_decide_eq_true. by apply Hne.
Qed.

Lemma displayData_window (processedData : list ProcessedDataPoint)
    (keys : list string) (s e : Z) :
  (Z.of_nat (length processedData) < 2 ^ 32)%Z →
  (0 ≤ s)%Z → (s ≤ e + 1)%Z → (e < Z.of_nat (length processedData))%Z →
  displayData processedData (Some (Fin (inject_Z s), Fin (inject_Z e))) keys
  = map (cleanPoint keys)
      (filter (λ point, truthyValue (get point "date") = true)
         (take (Z.to_nat (e + 1 - s)) (drop (Z.to_nat s) processedData))).
Proof.
  intros Hlen Hs Hse He. unfold displayData.
  assert (js_ge (Fin (inject_Z s)) (Fin 0) = true) as ->.
  { cbn. apply Qle_bool_iff. by rewrite <- (Zle_Qle 0). }
  assert (js_lt (Fin (inject_Z e)) (ofNat (length processedData)) = true)
    as ->.
  { unfold ofNat. rewrite js_lt_int. by apply bool_decide_eq_true. }
  cbn [andb]. by rewrite Array_slice_window.
Qed.

(** X7: for the series [processData] builds from records with non-empty
    dates, [displayData] drops and changes nothing: without zoom it is the
    series itself, and zoomed it is the window of
    [Math.floor(totalPoints / zoomLevel)] consecutive points that starts at
    [startIndex], which are also exactly the points the value axis is
    computed from. *)
Theorem displayData_is_the_visible_window (chartData : ChartData)
    (selectedVariations : list string) (timeRange : TimeRange) :
  datedRecords chartData → "date" ∉ selectedVariations →
  let processedData := processData chartData selectedVariations timeRange in
  displayData processedData None selectedVariations = processedData
  ∧ ∀ zoomLevel panOffset : Q,
      (Z.of_nat (length processedData) < 2 ^ 32)%Z → 1 < zoomLevel →
      let window :=
        visibleDataRange (Fin zoomLevel) (Fin panOffset)
                         (length processedData) in
      ∃ visiblePoints startIndex : Z,
        Math_floor (js_div (ofNat (length processedData)) (Fin zoomLevel))
        = Fin (inject_Z visiblePoints)
        ∧ window = Some (Fin (inject_Z startIndex),
                         Fin (inject_Z (startIndex + visiblePoints - 1)))
        ∧ displayData processedData window selectedVariations
          = take (Z.to_nat visiblePoints)
                 (drop (Z.to_nat startIndex) processedData)
        ∧ length (displayData processedData window selectedVariations)
          = Z.to_nat visiblePoints
        ∧ ∀ lineStyle,
            yAxisDomain processedData selectedVariations window lineStyle
            = computeDomain
                (displayData processedData window selectedVariations)
                selectedVariations lineStyle.
Proof.
  intros Hdated Hdate processedData.
  pose proof (processData_displayed_unchanged chartData selectedVariations
                timeRange Hdated Hdate) as Hsame.
  fold processedData in Hsame.
  split; [by apply displayed_unchanged|].
  intros z p Hlen Hz window.
  destruct (visibleDataRange_shape (length processedData) z p Hlen Hz)
    as (v & s & Hv & Hv0 & _ & Hs & Hrange).
  exists v, s. fold window in Hrange.
  assert (displayData processedData window selectedVariations
          = take (Z.to_nat v) (drop (Z.to_nat s) processedData)) as Hshown.
  { rewrite Hrange, displayData_window by lia.
    replace (s + v - 1 + 1 - s)%Z with v by lia.
    apply displayed_unchanged, Forall_forall. intros point Hpoint.
    rewrite Forall_forall in Hsame. apply Hsame.
    by eapply elem_of_take_drop. }
  split_and!; [done | done | done | |].
  - rewrite Hshown, length_take, length_drop. lia.
  - intros lineStyle. rewrite Hshown. unfold yAxisDomain.
    rewrite Hrange, Array_slice_window by lia.
    by replace (s + v - 1 + 1 - s)%Z with v by lia.
Qed.

(** X8: at a zoom level larger than the number of points (a series of
    fewer than five points, the zoom level being at most 5) the window is
    empty: no point is displayed and the value axis is the default
    [0, 100], wherever the chart is panned. *)
Theorem zoom_beyond_series_shows_nothing
    (processedData : list ProcessedDataPoint)
    (selectedVariations : list string) (lineStyle : LineStyle)
    (zoomLevel panOffset : Q) :
  (Z.of_nat (length processedData) < 2 ^ 32)%Z → 1 < zoomLevel →
  inject_Z (Z.of_nat (length processedData)) < zoomLevel →
  let window :=
    visibleDataRange (Fin zoomLevel) (Fin panOffset) (length processedData) in
  displayData processedData window selectedVariations = []
  ∧ yAxisDomain processedData selectedVariations window lineStyle
    = (Fin 0, Fin 100).
Proof.
  intros Hlen Hz Hshort window.
  destruct (visibleDataRange_shape (length processedData) zoomLevel panOffset
              Hlen Hz) as (v & s & Hv & Hv0 & Hzero & Hs & Hrange).
  fold window in Hrange. rewrite (Hzero Hshort) in *.
  rewrite Hrange. split.
  - rewrite displayData_window by lia.
    by replace (s + 0 - 1 + 1 - s)%Z with 0%Z by lia.
  - unfold yAxisDomain. rewrite Array_slice_window by lia.
    by replace (s + 0 - 1 + 1 - s)%Z with 0%Z by lia.
Qed.

End Display.

(** ** The tooltip *)

Lemma foldl_Math_max_greatest (qs : list Q) (a : Q) :
  ∃ M, foldl Math_max (Fin a) (map Fin qs) = Fin M
       ∧ a <= M ∧ Forall (λ q, q <= M) qs
       ∧ (M == a ∨ Exists (λ q, M == q) qs).
Proof.
  revert a. induction qs as [|q qs IH]; intros a.
  - exists a. split_and!; [done | lra | done | by left].
  - cbn [map foldl].
    destruct (Math_max_val (Fin a) (Fin q) a q)
      as (c & (c' & -> & Hc') & Hca & Hcq & Hc); [apply val_is_Fin..|].
    destruct (IH c') as (M & -> & HcM & Hall & HM).
    exists M. split_and!; [done | lra | | ].
    + apply Forall_cons. split; [lra | done].
    + destruct HM as [HM | HM]; [|right; by apply Exists_cons_tl].
      destruct Hc as [Hc | Hc]; [left; lra|].
      right. apply Exists_cons_hd. lra.
Qed.

Lemma foldl_Math_min_least (qs : list Q) (a : Q) :
  ∃ m, foldl Math_min (Fin a) (map Fin qs) = Fin m
       ∧ m <= a ∧ Forall (λ q, m <= q) qs
       ∧ (m == a ∨ Exists (λ q, m == q) qs).
Proof.
  revert a. induction qs as [|q qs IH]; intros a.
  - exists a. split_and!; [done | lra | done | by left].
  - cbn [map foldl].
    destruct (Math_min_val (Fin a) (Fin q) a q)
      as (c & (c' & -> & Hc') & Hca & Hcq & Hc); [apply val_is_Fin..|].
    destruct (IH c') as (m & -> & Hcm & Hall & Hm).
    exists m. split_and!; [done | lra | | ].
    + apply Forall_cons. split; [lra | done].
    + destruct Hm as [Hm | Hm]; [|right; by apply Exists_cons_tl].
      destruct Hc as [Hc | Hc]; [left; lra|].
      right. apply Exists_cons_hd. lra.
Qed.

(** The largest and the smallest of a non-empty array of finite numbers
    are elements of it that bound all others. *)
Lemma Math_max_spread_greatest (qs : list Q) :
  qs ≠ [] →
  ∃ M, Math_max_spread (map Fin qs) = Fin M
       ∧ Forall (λ q, q <= M) qs ∧ Exists (λ q, M == q) qs.
Proof.
  destruct qs as [|q qs]; [done|]. intros _.
  unfold Math_max_spread. cbn [map foldl].
  change (Math_max NInf (Fin q)) with (Fin q).
  destruct (foldl_Math_max_greatest qs q) as (M & -> & HqM & Hall & HM).
  exists M. split_and!; [done | by apply Forall_cons | ].
  destruct HM as [HM | HM]; [by apply Exists_cons_hd | by apply Exists_cons_tl].
Qed.

Lemma Math_min_spread_least (qs : list Q) :
  qs ≠ [] →
  ∃ m, Math_min_spread (map Fin qs) = Fin m
       ∧ Forall (λ q, m <= q) qs ∧ Exists (λ q, m == q) qs.
Proof.
  destruct qs as [|q qs]; [done|]. intros _.
  unfold Math_min_spread. cbn [map foldl].
  change (Math_min PInf (Fin q)) with (Fin q).
  destruct (foldl_Math_min_least qs q) as (m & -> & Hqm & Hall & Hm).
  exists m. split_and!; [done | by apply Forall_cons | ].
  destruct Hm as [Hm | Hm]; [by apply Exists_cons_hd | by apply Exists_cons_tl].
Qed.

(** X9: in an active tooltip over finite values, an entry carries the
    star exactly when its value is positive and no other value is larger;
    entries that tie for the largest value all carry it, and as soon as one
    value is positive some entry does. *)
Theorem CustomTooltip_stars_the_largest (values : list Q) :
  values ≠ [] →
  ∃ stars,
    CustomTooltip true (Some (map Fin values)) = Some stars
    ∧ length stars = length values
    ∧ (∀ i q, values !! i = Some q →
         (stars !! i = Some true ↔ 0 < q ∧ Forall (λ q', q' <= q) values))
    ∧ (Exists (λ q, 0 < q) values → true ∈ stars).
Proof.
  intros Hne.
  destruct (Math_max_spread_greatest values Hne) as (M & HM & Hall & Hex).
  assert (∀ i q, values !! i = Some q →
            map (λ value, js_eq value (Fin M) && js_gt value (Fin 0))
                (map Fin values) !! i
            = Some (Qeq_bool q M && negb (Qle_bool q 0))) as Hstar.
  { intros i q Hi. by rewrite !list_lookup_fmap, Hi. }
  exists (map (λ value, js_eq value (Fin M) && js_gt value (Fin 0))
              (map Fin values)).
  split_and!.
  - unfold CustomTooltip. destruct values as [|q qs]; [done|].
    cbn [map length Nat.eqb negb orb] in *. by rewrite HM.
  - by rewrite !length_map.
  - intros i q Hi. rewrite (Hstar i q Hi). split.
    + intros [= [Heq Hpos]%andb_true_iff].
      apply Qeq_bool_iff in Heq.
      apply negb_true_iff, Qle_bool_false in Hpos.
      split; [done|]. eapply Forall_impl; [exact Hall|].
      cbv beta. intros q'. lra.
    + intros [Hpos Hmax]. f_equal. apply andb_true_iff. split.
      * apply Qeq_bool_iff.
        apply Exists_exists in Hex as (q' & Hq' & HMq').
        rewrite Forall_forall in Hmax, Hall.
        pose proof (Hmax q' Hq'). 
        pose proof (Hall q (list_elem_of_lookup_2 _ _ _ Hi)). lra.
      * by apply negb_true_iff, Qle_bool_false.
  - intros (q & Hq & Hpos)%Exists_exists.
    apply Exists_exists in Hex as (q' & Hq' & HMq').
    apply list_elem_of_lookup_1 in Hq' as (i & Hi).
    apply (list_elem_of_lookup_2 _ i). rewrite (Hstar i q' Hi). f_equal.
    rewrite Forall_forall in Hall. pose proof (Hall q Hq).
    apply andb_true_iff. split.
    + apply Qeq_bool_iff. lra.
    + apply negb_true_iff, Qle_bool_false. lra.
Qed.

(** ** Variation keys and the variation select *)

Lemma pretty_N_go_last (x : N) (c : ascii) (s : string) :
  lastChar (pretty_N_go x (String c s)) = lastChar (String c s).
Proof.
  revert c s. induction (N.lt_wf_0 x) as [x _ IH]. intros c s.
  assert (x = 0 ∨ 0 < x)%N as [->|Hx] by lia.
  - by rewrite pretty_N_go_0.
  - rewrite pretty_N_go_step by done. rewrite IH by (by apply N.div_lt).
    done.
Qed.

Lemma pretty_N_char_digit (x : N) : isDigit (pretty_N_char x) = true.
Proof. unfold pretty_N_char. by repeat case_match. Qed.

Lemma pretty_Z_last (a : Z) :
  ∃ c, lastChar (pretty a) = Some c ∧ isDigit c = true.
Proof.
  assert (∀ p : positive,
            ∃ c, lastChar (pretty (N.pos p)) = Some c ∧ isDigit c = true)
    as Hpos.
  { intros p. unfold pretty, pretty_N. rewrite decide_False by done.
    rewrite pretty_N_go_step by done. rewrite pretty_N_go_last.
    eexists. split; [reflexivity|]. apply pretty_N_char_digit. }
  destruct a as [|p|p].
  - by exists "0"%char.
  - apply Hpos.
  - destruct (Hpos p) as (c & Hc & Hd). exists c. split; [|done].
    change (pretty (Z.neg p)) with ("-" +:+ pretty (N.pos p)).
    cbn. by destruct (pretty (N.pos p)).
Qed.

Section Keys.

Context {engine : Engine}.

Lemma Number_toString_int (a : Z) :
  (- 2 ^ 53 ≤ a ≤ 2 ^ 53)%Z →
  Number_toString (Fin (inject_Z a)) = pretty a.
Proof.
  intros Ha. unfold Number_toString. rewrite Qfloor_Z.
  assert (Qeq_bool (inject_Z a) (inject_Z a) = true) as ->
    by (by apply Qeq_bool_iff).
  assert (Qle_bool (Qabs (inject_Z a)) (inject_Z (2 ^ 53)) = true) as ->;
    [|done].
  apply Qle_bool_iff.
  apply Qabs_case; intros _; [|rewrite <- inject_Z_opp];
    rewrite <- Zle_Qle; lia.
Qed.

Lemma getVariationKey_nonempty (variation : Variation) :
  getVariationKey variation ≠ "".
Proof.
  unfold getVariationKey. destruct (id variation) as [n|]; [|done].
  cbv zeta. by case_decide.
Qed.

(** X10: for an integer id of magnitude at most 2^53 (the range in which
    every integer is a number of its own) the key is the decimal numeral
    of the id.  So it is none of "date" and "all", it is "0" only for the
    id 0 (the key of a variation without id), and two different integer
    ids of that range never get the same key. *)
Theorem getVariationKey_integer_ids (a : Z) (name1 : string) :
  (- 2 ^ 53 ≤ a ≤ 2 ^ 53)%Z →
  let key :=
    getVariationKey {| id := Some (Fin (inject_Z a)); name := name1 |} in
  key = pretty a
  ∧ key ≠ "date" ∧ key ≠ "all"
  ∧ (key = "0" ↔ a = 0%Z)
  ∧ ∀ (b : Z) (name2 : string),
      (- 2 ^ 53 ≤ b ≤ 2 ^ 53)%Z →
      getVariationKey {| id := Some (Fin (inject_Z b)); name := name2 |} = key →
      b = a.
Proof.
  intros Ha key.
  assert (∀ (b : Z) (name2 : string),
            (- 2 ^ 53 ≤ b ≤ 2 ^ 53)%Z →
            getVariationKey {| id := Some (Fin (inject_Z b)); name := name2 |}
            = pretty b) as Hkey.
  { intros b name2 Hb. unfold getVariationKey. cbn [id].
    rewrite Number_toString_int by done. cbv zeta.
    case_decide as Hempty; [|done].
    destruct (pretty_Z_last b) as (c & Hc & _). by rewrite Hempty in Hc. }
  assert (key = pretty a) as Hk by (by apply Hkey).
  destruct (pretty_Z_last a) as (c & Hc & Hd). rewrite <- Hk in Hc.
  split_and!.
  - done.
  - intros Heq. rewrite Heq in Hc. by injection Hc as <-.
  - intros Heq. rewrite Heq in Hc. by injection Hc as <-.
  - rewrite Hk. split; [|by intros ->].
    intros Heq. by apply (inj pretty a 0%Z).
  - intros b name2 Hb Heq. rewrite Hkey, Hk in Heq by done.
    by apply (inj pretty).
Qed.

(** X11: after the user picks an option of the variation select ("all"
    or the key of a variation), the select shows that option again, unless
    the data has exactly one variation: then it shows "all" whatever was
    picked. *)
Theorem variationSelect_round_trip (data : ChartData) (value : string) :
  value = "all" ∨ (∃ v, v ∈ variations data ∧ value = getVariationKey v) →
  (length (variations data) ≠ 1%nat →
   variationSelectValue data (variationSelectChange data value) = value)
  ∧ (length (variations data) = 1%nat →
     variationSelectValue data (variationSelectChange data value) = "all").
Proof.
  intros Hvalue.
  assert (variationSelectValue data (map getVariationKey (variations data))
          = "all") as Hall.
  { unfold variationSelectValue. by rewrite length_map, Nat.eqb_refl. }
  unfold variationSelectChange.
  destruct (decide (value = "all")) as [->|Hne]; [done|].
  destruct Hvalue as [?|(v & Hv & ->)]; [done|].
  unfold variationSelectValue. cbn [length]. split.
  - intros Hlen. destruct (variations data) as [|? [|? ?]]; try done.
    all: cbn [length Nat.eqb]; rewrite decide_False; [done|];
      apply getVariationKey_nonempty.
  - by intros ->.
Qed.

Lemma variationOfKey_found (data : ChartData) (v : Variation) :
  v ∈ variations data →
  ∃ v', variationOfKey data (getVariationKey v) = Some v'
        ∧ v' ∈ variations data
        ∧ getVariationKey v' = getVariationKey v.
Proof.
  intros Hv. unfold variationOfKey.
  destruct (List.find _ _) as [v'|] eqn:E.
  - apply find_some in E as [Hin Hkey]. exists v'.
    split_and!; [done | by apply list_elem_of_In |].
    by apply bool_decide_eq_true in Hkey.
  - apply list_elem_of_In in Hv.
    pose proof (find_none _ _ E v Hv) as Hnone. cbv beta in Hnone.
    by rewrite bool_decide_eq_false in Hnone.
Qed.

(** X12: after any sequence of picks from the variation select, every
    selected key is the key of a variation of the data, found by
    [data.variations.find], so no selected line is skipped when the chart
    is drawn; and the selection is not empty if the data has a
    variation. *)
Theorem selected_keys_have_variations (data : ChartData)
    (choices : list string) :
  Forall (λ value, value = "all"
                   ∨ ∃ v, v ∈ variations data ∧ value = getVariationKey v)
         choices →
  let selectedVariations :=
    foldl (λ _ value, variationSelectChange data value)
          (map getVariationKey (variations data)) choices in
  (variations data ≠ [] → selectedVariations ≠ [])
  ∧ Forall (λ key, ∃ v, variationOfKey data key = Some v
                        ∧ getVariationKey v = key)
           selectedVariations.
Proof.
  intros Hchoices.
  set (good := λ selected : list string,
         (variations data ≠ [] → selected ≠ [])
         ∧ Forall (λ key, ∃ v, variationOfKey data key = Some v
                               ∧ getVariationKey v = key) selected).
  assert (good (map getVariationKey (variations data))) as Hinit.
  { split.
    - by destruct (variations data).
    - apply Forall_fmap, Forall_forall. intros v Hv. cbn.
      destruct (variationOfKey_found data v Hv) as (v' & ? & _ & ?).
      by exists v'. }
  assert (∀ value,
            value = "all"
            ∨ (∃ v, v ∈ variations data ∧ value = getVariationKey v) →
            good (variationSelectChange data value)) as Hstep.
  { intros value Hvalue. unfold variationSelectChange.
    case_decide as Hall; [done|].
    destruct Hvalue as [?|(v & Hv & ->)]; [done|]. split; [done|].
    apply Forall_singleton.
    destruct (variationOfKey_found data v Hv) as (v' & ? & _ & ?).
    by exists v'. }
  cbv zeta. fold (good (foldl (λ _ value, variationSelectChange data value)
                  (map getVariationKey (variations data)) choices)).
  revert Hinit. generalize (map getVariationKey (variations data)).
  induction Hchoices as [|value choices Hvalue _ IH]; intros selected Hsel;
    [done|].
  cbn [foldl]. apply IH. by apply Hstep.
Qed.

End Keys.

(** ** Numbers with two decimal digits *)

Lemma Qfloor_half (n : Z) (x : Q) : x == inject_Z n + (1 # 2) → Qfloor x = n.
Proof.
  intros Hx.
  pose proof (Qfloor_le x) as Hle. pose proof (Qlt_floor x) as Hlt.
  rewrite inject_Z_plus in Hlt.
  change (inject_Z 1) with 1 in Hlt.
  assert (inject_Z (Qfloor x) < inject_Z n + 1) as H1 by lra.
  assert (inject_Z n < inject_Z (Qfloor x) + 1) as H2 by lra.
  change 1 with (inject_Z 1) in H1, H2.
  rewrite <- inject_Z_plus, <- Zlt_Qlt in H1, H2. lia.
Qed.

(** A multiple of 1/100 is printed by [toFixed(2)] and read back
    unchanged. *)
Lemma Number_toFixed2_fixed (n : Z) (nonneg : bool) :
  (0 ≤ n)%Z →
  let r := Qred (if nonneg then n # 100 else - n # 100) in
  Number_toFixed2 (Fin r) = Fin r.
Proof.
  intros Hn r. unfold Number_toFixed2.
  destruct (Qle_bool 1e21 (Qabs r)); [done|].
  assert (0 <= inject_Z n) as Hn' by (by rewrite <- (Zle_Qle 0)).
  assert (Qabs r == inject_Z n * (1 # 100)) as Habs.
  { unfold r. rewrite Qred_correct. destruct nonneg.
    - rewrite Qabs_pos; rewrite Qmake_100; lra.
    - rewrite Qabs_neg; rewrite Qmake_100, inject_Z_opp; lra. }
  rewrite (Qfloor_half n) by (rewrite Habs; lra).
  f_equal. unfold r. destruct nonneg.
  - assert (Qle_bool 0 (Qred (n # 100)) = true) as ->; [|done].
    apply Qle_bool_iff. rewrite Qred_correct, Qmake_100. lra.
  - destruct n as [|p|p]; [done| |lia].
    assert (Qle_bool 0 (Qred (- Z.pos p # 100)) = false) as ->; [|done].
    apply Qle_bool_false. rewrite Qred_correct. done.
Qed.

Lemma rnd_Fin (q r : Q) :
  rnd q = Fin r → r = Qred q ∧ Qabs q <= MAX_VALUE.
Proof.
  unfold rnd. destruct (Qle_bool (Qabs q) MAX_VALUE) eqn:E.
  - intros [= <-]. split; [done|]. by apply Qle_bool_iff.
  - by destruct (Qle_bool 0 q).
Qed.

(** What [calculateConversionRate] returns, when finite, is in lowest
    terms and within the number range. *)
Lemma calculateConversionRate_Fin (c v : num) (q : Q) :
  calculateConversionRate c v = Fin q →
  Qred q = q ∧ Qabs q <= MAX_VALUE.
Proof.
  unfold calculateConversionRate. destruct (js_eq v (Fin 0)).
  - intros [= <-]. done.
  - destruct (js_div c v) as [| | |a]; cbn [js_mul]; try done.
    intros [-> Hr]%rnd_Fin. split; [apply Qred_involutive|].
    by rewrite Qred_correct.
Qed.

(** The value [processData] stores is one that [toFixed(2)] and the
    arithmetic on a single value leave alone. *)
Lemma computeRate_stable (c v : num) :
  ∃ q, computeRate c v = Fin q
       ∧ Qred q = q ∧ Qabs q <= MAX_VALUE
       ∧ Number_toFixed2 (Fin q) = Fin q.
Proof.
  unfold computeRate.
  destruct (calculateConversionRate c v) as [| | |q0] eqn:Hrate;
    try (exists 0; by split_and!).
  apply calculateConversionRate_Fin in Hrate as [Hred Hrange].
  unfold Number_toFixed2 at 1 2 3.
  destruct (Qle_bool 1e21 (Qabs q0)) eqn:E; cbn [isNaN isFinite negb orb].
  - exists q0. split_and!; [done | done | done |].
    unfold Number_toFixed2. by rewrite E.
  - apply Qle_bool_false in E.
    set (n := Qfloor (Qabs q0 * 100 + (1 # 2))).
    assert (0 ≤ n)%Z as Hn.
    { rewrite <- (Qfloor_Z 0). apply Qfloor_resp_le.
      pose proof (Qabs_nonneg q0). change (inject_Z 0) with 0. lra. }
    eexists. split_and!; [reflexivity | apply Qred_involutive | |].
    + assert (1e21 + 1 <= MAX_VALUE) as Hbig by (by apply Qle_bool_imp_le).
      pose proof (Qfloor_le (Qabs q0 * 100 + (1 # 2))) as Hle. fold n in Hle.
      assert (0 <= inject_Z n) as Hn' by (by rewrite <- (Zle_Qle 0)).
      rewrite Qred_correct. destruct (Qle_bool 0 q0).
      * rewrite Qabs_pos; rewrite Qmake_100; lra.
      * rewrite Qabs_neg; rewrite Qmake_100, inject_Z_opp; lra.
    + by apply (Number_toFixed2_fixed n (Qle_bool 0 q0)).
Qed.

Section Weeks.

Context {engine : Engine}.

Lemma rnd_stable (x q : Q) :
  x == q → Qred q = q → Qabs q <= MAX_VALUE → rnd x = Fin q.
Proof.
  intros Hx Hred Hrange. unfold rnd.
  assert (Qle_bool (Qabs x) MAX_VALUE = true) as ->.
  { apply Qle_bool_iff. by rewrite Hx. }
  by rewrite (Qred_complete _ _ Hx), Hred.
Qed.

(** The weekly value of a chunk of one point is the value of that
    point. *)
Lemma weekValue_single (point : ProcessedDataPoint) (key : string) (q : Q) :
  key ≠ "date" → numericFields point →
  point !! key = Some (VNum (Fin q)) →
  Qred q = q → Qabs q <= MAX_VALUE → Number_toFixed2 (Fin q) = Fin q →
  weekValue [point] key = Fin q.
Proof.
  intros Hkey Hnum Hq Hred Hrange Hfixed.
  rewrite weekValue_weeklyMean by (done || by apply Forall_singleton).
  unfold weeklyMean. rewrite finiteValues_cons, Hq.
  change (finiteValues [] key) with (@nil num).
  unfold meanOf. cbn [foldl length js_add].
  rewrite (rnd_stable (0 + q) q) by (done || lra).
  unfold ofNat. cbn [js_div].
  assert (Qeq_bool (inject_Z (Z.of_nat 1)) 0 = false) as -> by done.
  rewrite (rnd_stable _ q); [by rewrite Hfixed | | done | done].
  change (inject_Z (Z.of_nat 1)) with 1. field.
Qed.

(** X13: a week of a single day is that day: when the last week of the
    series has one record only (7j + 1 records), the weekly point built for
    it is the point of that day, date and values alike. *)
Theorem week_of_one_day_is_that_day (chartData : ChartData)
    (selectedVariations : list string) (j : nat) :
  "date" ∉ selectedVariations →
  length (data chartData) = (7 * j + 1)%nat →
  ∃ point,
    processData chartData selectedVariations day !! (7 * j)%nat = Some point
    ∧ processData chartData selectedVariations week !! j = Some point.
Proof.
  intros Hdate Hlen. unfold processData.
  set (days := map (dayPoint selectedVariations) (data chartData)).
  assert (length days = (7 * j + 1)%nat) as Hdays
    by (unfold days; by rewrite length_map).
  destruct (aggregateByWeek_lookup days j) as (first & rest & Hchunk & Hpoint).
  { rewrite aggregateByWeek_length, Hdays.
    apply Nat.div_le_lower_bound; lia. }
  assert (rest = []) as ->.
  { apply (f_equal length) in Hchunk.
    rewrite length_take, length_drop, Hdays in Hchunk. cbn [length] in Hchunk.
    destruct rest; [done | cbn [length] in Hchunk; lia]. }
  assert (days !! (7 * j)%nat = Some first) as Hfirst.
  { apply (f_equal (λ l, l !! 0%nat)) in Hchunk.
    rewrite lookup_take_lt, lookup_drop in Hchunk by lia.
    by rewrite Nat.add_0_r in Hchunk. }
  exists first. split; [done|]. rewrite Hpoint. f_equal.
  unfold days in Hfirst. rewrite list_lookup_fmap in Hfirst.
  destruct (data chartData !! (7 * j)%nat) as [dataPoint|]; [|done].
  injection Hfirst as <-.
  apply map_eq. intros key. rewrite weekPoint_lookup, dayPoint_lookup.
  destruct (decide (key = "date")) as [->|Hkey].
  - rewrite decide_False by done. cbn [weekLabel]. unfold get.
    by rewrite dayPoint_lookup, decide_False, decide_True.
  - destruct (decide (key ∈ selectedVariations)) as [Hin|Hnin];
      [destruct (decide (key = "__proto__")) as [->|Hproto]|].
    + case_decide as Hsome; [by destruct Hsome | done].
    + rewrite decide_True by (by eexists). unfold dayValue.
      destruct (computeRate_stable
                  (orZero (conversions dataPoint !! key))
                  (orZero (visits dataPoint !! key)))
        as (q & Hq & Hred & Hrange & Hfixed).
      rewrite Hq. rewrite (weekValue_single _ key q); try done.
      * apply dayPoint_numericFields.
      * rewrite dayPoint_lookup.
        rewrite (decide_True (P := key ∈ selectedVariations)) by done.
        rewrite (decide_False (P := key = "__proto__")) by done.
        unfold dayValue. by rewrite Hq.
    + case_decide as Hsome; [by destruct Hsome | done].
Qed.

End Weeks.

(** ** The value axis, continued *)

Lemma paddedDomain_covers (m M : Q) (lineStyle : LineStyle) :
  0 <= m → m <= M → M <= 1e308 →
  ∃ lo hi, paddedDomain (Fin m) (Fin M) lineStyle = (Fin lo, Fin hi)
           ∧ lo <= m ∧ M <= hi
           ∧ match lineStyle with smooth => -5 <= lo | _ => 0 <= lo end.
Proof.
  intros Hm HmM HM. pose proof MAX_VALUE_lower as HMAX.
  assert (1e308 == 10 * 1e307) as H308 by (by vm_compute).
  assert (100 <= 1e307) as H307 by (by vm_compute).
  unfold paddedDomain.
  unfold js_gt, Math_max. destruct lineStyle.
  all: repeat first
         [ exact_step; [apply in_range with 15e307; lra|]
         | progress cbn [js_lt negb orb isNaN isFinite]
         | compare_step ].
  all: first [ exfalso; lra
             | eexists _, _; split; [reflexivity | split_and!; lra] ].
Qed.

Lemma Forall_Fin (lo hi : Q) (xs : list num) :
  Forall (λ x, ∃ q, x = Fin q ∧ lo <= q ∧ q <= hi) xs →
  ∃ qs, xs = map Fin qs ∧ Forall (λ q, lo <= q ∧ q <= hi) qs.
Proof.
  induction 1 as [|x xs (q & -> & Hq) _ (qs & -> & Hqs)].
  - by exists [].
  - exists (q :: qs). split; [done | by apply Forall_cons].
Qed.

Section Domain.

Context {engine : Engine}.

(** The bounds of the value axis enclose the values they are computed
    from. *)
Lemma computeDomain_encloses
    (dataToUse : list ProcessedDataPoint) (selectedVariations : list string)
    (lineStyle : LineStyle) :
  (∀ point key v, point ∈ dataToUse → key ∈ selectedVariations →
     point !! key = Some v →
     ∃ q, v = VNum (Fin q) ∧ 0 <= q ∧ q <= 1e308) →
  ∃ min max : Q,
    computeDomain dataToUse selectedVariations lineStyle
    = (Fin min, Fin max)
    ∧ match lineStyle with smooth => -5 <= min | _ => 0 <= min end
    ∧ min <= max
    ∧ ∀ point key q,
        point ∈ dataToUse → key ∈ selectedVariations →
        point !! key = Some (VNum (Fin q)) →
        min <= q ∧ q <= max.
Proof.
  intros Hfields. unfold computeDomain.
  set (values := allValues dataToUse selectedVariations).
  assert (Forall (λ x, ∃ q, x = Fin q ∧ 0 <= q ∧ q <= 1e308)
                 (map ToNumber values)) as Hvalues.
  { apply Forall_fmap, Forall_forall. intros v Hv.
    apply allValues_elem in Hv as (point & key & Hpoint & Hkey & -> & Hc).
    unfold get in *. destruct (point !! key) as [v|] eqn:Hv; [|by cbv in Hc].
    destruct (Hfields point key v Hpoint Hkey Hv) as (q & -> & Hq).
    by exists q. }
  assert (∀ point key q,
            point ∈ dataToUse → key ∈ selectedVariations →
            point !! key = Some (VNum (Fin q)) →
            Fin q ∈ map ToNumber values) as Hin.
  { intros point key q Hpoint Hkey Hq.
    apply list_elem_of_fmap. exists (VNum (Fin q)). split; [done|].
    apply allValues_elem. exists point, key.
    split_and!; [done | done | | done]. unfold get. by rewrite Hq. }
  apply Forall_Fin in Hvalues as (qs & Hqs & Hbounds).
  rewrite Hqs in Hin. rewrite Hqs.
  destruct values as [|v values]; cbn [length Nat.eqb].
  { exists 0, 100. split_and!; [done | by destruct lineStyle | done |].
    intros point key q Hpoint Hkey Hq.
    specialize (Hin point key q Hpoint Hkey Hq).
    destruct qs; [|done]. by apply elem_of_nil in Hin. }
  assert (qs ≠ []) as Hne by (by destruct qs).
  destruct (Math_min_spread_least qs Hne) as (m & -> & Hleast & Hm).
  destruct (Math_max_spread_greatest qs Hne) as (M & -> & Hgreatest & HM).
  cbn [isNaN isFinite negb orb].
  rewrite Forall_forall in Hbounds, Hleast, Hgreatest.
  apply Exists_exists in Hm as (qm & Hqm & Hmq).
  apply Exists_exists in HM as (qM & HqM & HMq).
  pose proof (Hbounds qm Hqm) as Hbm. pose proof (Hbounds qM HqM) as HbM.
  pose proof (Hleast qM HqM) as HmM.
  destruct (paddedDomain_covers m M lineStyle)
    as (lo & hi & -> & Hlo & Hhi & Hstyle); [lra..|].
  exists lo, hi. split_and!; [done | done | lra |].
  intros point key q Hpoint Hkey Hq.
  specialize (Hin point key q Hpoint Hkey Hq).
  apply list_elem_of_fmap in Hin as (q' & [= ->] & Hq').
  pose proof (Hleast q' Hq'). pose proof (Hgreatest q' Hq'). lra.
Qed.

(** X14: when the fields of the visible points under the selected keys
    are finite numbers between 0 and 10^308, the value axis encloses every
    one of them: its lower bound is at most the smallest value, and at
    least 0 (-5 in the 'smooth' style); its upper bound is at least the
    largest value. *)
Theorem computeDomain_covers_values
    (dataToUse : list ProcessedDataPoint) (selectedVariations : list string)
    (lineStyle : LineStyle) :
  (∀ point key v, point ∈ dataToUse → key ∈ selectedVariations →
     point !! key = Some v →
     ∃ q, v = VNum (Fin q) ∧ 0 <= q ∧ q <= 1e308) →
  ∃ min max : Q,
    computeDomain dataToUse selectedVariations lineStyle
    = (Fin min, Fin max)
    ∧ match lineStyle with smooth => -5 <= min | _ => 0 <= min end
    ∧ ∀ point key q,
        point ∈ dataToUse → key ∈ selectedVariations →
        point !! key = Some (VNum (Fin q)) →
        min <= q ∧ q <= max.
Proof.
  intros Hfields.
  destruct (computeDomain_encloses dataToUse selectedVariations lineStyle
              Hfields) as (lo & hi & Hdomain & Hlo & _ & Hcover).
  by exists lo, hi.
Qed.

End Domain.

(** ** Counts *)

Lemma orZero_count (x : option num) :
  (∀ y, x = Some y → countValue y) →
  ∃ k : Z, orZero x = Fin (inject_Z k) ∧ (0 ≤ k ≤ 2 ^ 53)%Z.
Proof.
  intros Hx. destruct x as [y|]; [|by exists 0%Z].
  destruct (Hx y eq_refl) as (k & -> & Hk). cbn [orZero truthy].
  destruct (Qeq_bool (inject_Z k) 0); cbn [negb]; [by exists 0%Z | by exists k].
Qed.

(** The rate stored for two counts lies between 0 and 10^18. *)
Lemma computeRate_counts (c v : Z) :
  (0 ≤ c ≤ 2 ^ 53)%Z → (0 ≤ v ≤ 2 ^ 53)%Z →
  ∃ q, computeRate (Fin (inject_Z c)) (Fin (inject_Z v)) = Fin q
       ∧ 0 <= q ∧ q <= 1e18.
Proof.
  intros Hc Hv.
  assert (v = 0 ∨ 1 ≤ v)%Z as [-> | Hv1] by lia.
  { exists 0. split; [|done]. unfold computeRate, calculateConversionRate.
    change (js_eq (Fin (inject_Z 0)) (Fin 0)) with true. by vm_compute. }
  set (C := inject_Z c). set (V := inject_Z v).
  assert (0 <= C ∧ C <= inject_Z (2 ^ 53)) as [HC0 HC1].
  { unfold C. rewrite <- (Zle_Qle 0), <- Zle_Qle. lia. }
  assert (1 <= V) as HV.
  { unfold V. change 1 with (inject_Z 1). rewrite <- Zle_Qle. lia. }
  assert (0 <= C / V ∧ C / V <= C) as [Hq0 Hq1].
  { split; [apply Qle_shift_div_l; lra|].
    apply Qle_shift_div_r; [lra|]. nra. }
  assert (inject_Z (2 ^ 53) * 100 + 1 <= 1e18) as Hbig
    by (by apply Qle_bool_imp_le).
  assert (1e18 <= 1e21) as H21 by (by apply Qle_bool_imp_le).
  assert (1e21 <= MAX_VALUE) as Hmax by (by apply Qle_bool_imp_le).
  destruct (calculateConversionRate_val C V) as (q & Hrate & Hq);
    [lra | lra | lra |].
  destruct (Number_toFixed2_rounded q (C / V * 100) Hq) as (r & Hr & Hround);
    [lra | lra |].
  exists r. unfold computeRate. rewrite Hrate, Hr. split; [done|].
  split; [apply (rounded2_nonneg (C / V * 100)); [lra | done]|].
  destruct Hround as (_ & _ & Hup). lra.
Qed.

Lemma Qsum_upper (qs : list Q) (B : Q) :
  Forall (λ q, 0 <= q ∧ q <= B) qs →
  Qsum qs <= inject_Z (Z.of_nat (length qs)) * B.
Proof.
  induction 1 as [|q qs [Hq0 HqB] _ IH].
  - change (Qsum []) with 0. cbn [length].
    change (inject_Z (Z.of_nat 0)) with 0.
    lra.
  - rewrite Qsum_cons. cbn [length]. rewrite Nat2Z.inj_succ, <- Z.add_1_r.
    rewrite inject_Z_plus. change (inject_Z 1) with 1. lra.
Qed.

Lemma finiteValues_bounded (chunk : list ProcessedDataPoint) (key : string)
    (B : Q) :
  (∀ point q, point ∈ chunk → point !! key = Some (VNum (Fin q)) →
     0 <= q ∧ q <= B) →
  ∃ qs, finiteValues chunk key = map Fin qs
        ∧ Forall (λ q, 0 <= q ∧ q <= B) qs
        ∧ (length qs ≤ length chunk)%nat.
Proof.
  induction chunk as [|point chunk IH]; intros Hchunk.
  - by exists [].
  - destruct IH as (qs & Hqs & Hbound & Hlen).
    { intros p q Hp. apply Hchunk. by right. }
    rewrite finiteValues_cons.
    destruct (point !! key) as [[| |[| | |q]]|] eqn:Hq;
      try (exists qs; split_and!; [done | done | cbn [length]; lia]).
    exists (q :: qs). rewrite Hqs. split_and!; [done | | cbn [length]; lia].
    apply Forall_cons. split; [|done]. apply (Hchunk point); [by left | done].
Qed.

(** The rounded mean of at most seven values between 0 and 10^18 lies
    between 0 and 10^18 + 1. *)
Lemma weeklyMean_bounded (chunk : list ProcessedDataPoint) (key : string) :
  (length chunk ≤ 7)%nat →
  (∀ point q, point ∈ chunk → point !! key = Some (VNum (Fin q)) →
     0 <= q ∧ q <= 1e18) →
  ∃ r, weeklyMean chunk key = Fin r ∧ 0 <= r ∧ r <= 1e18 + 1.
Proof.
  intros Hlen Hchunk.
  destruct (finiteValues_bounded chunk key 1e18 Hchunk)
    as (qs & Hqs & Hbound & Hlenqs).
  unfold weeklyMean. rewrite Hqs.
  destruct qs as [|q0 qs'] eqn:Eqs.
  { exists 0. by vm_compute. }
  rewrite <- Eqs in *. clear Hqs.
  set (n := inject_Z (Z.of_nat (length qs))).
  assert (1 <= n ∧ n <= 7) as [Hn1 Hn7].
  { unfold n. change 1 with (inject_Z 1). change 7 with (inject_Z 7).
    rewrite <- !Zle_Qle. subst qs. cbn [length] in *. lia. }
  assert (Forall (λ q, 0 <= q) qs) as Hpos.
  { eapply Forall_impl; [exact Hbound|]. cbv beta. tauto. }
  pose proof (Qsum_nonneg qs Hpos) as Hsum0.
  pose proof (Qsum_upper qs 1e18 Hbound) as Hsum1. fold n in Hsum1.
  assert (0 < 1e18) as HB0 by done.
  assert (7 * 1e18 <= MAX_VALUE) as Hmax by (by apply Qle_bool_imp_le).
  assert (1e18 + 1 <= 1e21) as H21 by (by apply Qle_bool_imp_le).
  assert (0 <= Qsum qs / n ∧ Qsum qs / n <= 1e18) as [Hm0 Hm1].
  { split; [apply Qle_shift_div_l; lra|].
    apply Qle_shift_div_r; [lra|]. lra. }
  assert (val_is (meanOf (map Fin qs)) (Qsum qs / n)) as (m & -> & Hm).
  { unfold meanOf. subst qs. cbn [map].
    change (Fin q0 :: map Fin qs') with (map Fin (q0 :: qs')).
    rewrite length_map. fold n.
    apply js_div_val.
    - apply val_is_eq with (0 + Qsum (q0 :: qs')); [|lra].
      apply foldl_js_add_sum; [apply val_is_Fin | lra | done | nra].
    - apply val_is_Fin.
    - lra.
    - apply in_range with (7 * 1e18); [lra | lra | done]. }
  destruct (Number_toFixed2_rounded m (Qsum qs / n) Hm Hm0)
    as (r & -> & Hround); [lra|].
  exists r. split; [done|].
  split; [by apply (rounded2_nonneg (Qsum qs / n))|].
  destruct Hround as (_ & _ & Hup). lra.
Qed.

Section EndToEnd.

Context {engine : Engine}.

Lemma dayValue_counts (chartData : ChartData) (dataPoint : DataPoint)
    (key : string) :
  countsOnly chartData → dataPoint ∈ data chartData →
  ∃ q, dayValue dataPoint key = VNum (Fin q) ∧ 0 <= q ∧ q <= 1e18.
Proof.
  intros Hcounts Hin. unfold dayValue.
  destruct (orZero_count (conversions dataPoint !! key)) as (c & -> & Hc).
  { intros y Hy. apply (Hcounts dataPoint key y Hin). by right. }
  destruct (orZero_count (visits dataPoint !! key)) as (v & -> & Hv).
  { intros y Hy. apply (Hcounts dataPoint key y Hin). by left. }
  destruct (computeRate_counts c v Hc Hv) as (q & -> & Hq).
  by exists q.
Qed.

(** From counts, every value of the day and week series lies between 0
    and 10^18 + 1. *)
Lemma processData_values_bounded (chartData : ChartData)
    (selectedVariations : list string) (timeRange : TimeRange) :
  countsOnly chartData → "date" ∉ selectedVariations →
  Forall (λ point : ProcessedDataPoint,
            ∀ key v, key ∈ selectedVariations → point !! key = Some v →
                     ∃ q, v = VNum (Fin q) ∧ 0 <= q ∧ q <= 1e18 + 1)
         (processData chartData selectedVariations timeRange).
Proof.
  intros Hcounts Hdate.
  assert (Forall (λ point : ProcessedDataPoint,
                    numericFields point
                    ∧ ∀ key v, key ∈ selectedVariations →
                        point !! key = Some v →
                        ∃ q, v = VNum (Fin q) ∧ 0 <= q ∧ q <= 1e18)
                 (map (dayPoint selectedVariations) (data chartData)))
    as Hdays.
  { apply Forall_fmap, Forall_forall. intros dataPoint Hin. cbn.
    split; [apply dayPoint_numericFields|]. intros key v Hkey.
    rewrite dayPoint_lookup.
    rewrite (decide_True (P := key ∈ selectedVariations)) by done.
    case_decide; [done|]. intros [= <-].
    by apply (dayValue_counts chartData). }
  unfold processData. destruct timeRange.
  - eapply Forall_impl; [exact Hdays|]. cbv beta.
    intros point [_ Hpoint] key v Hkey Hv.
    destruct (Hpoint key v Hkey Hv) as (q & -> & Hq0 & Hq1).
    exists q. split_and!; [done | done | lra].
  - apply Forall_forall. intros point Hpoint key v Hkey.
    apply elem_of_aggregateByWeek in Hpoint as (first & rest & -> & Hlen & Hin).
    rewrite Forall_forall in Hdays.
    assert (key ≠ "date") as Hne by (by intros ->).
    rewrite weekPoint_lookup.
    rewrite (decide_False (P := key = "date")) by done.
    case_decide; [|done]. case_decide; [done|]. intros [= <-].
    rewrite weekValue_weeklyMean; [|done|].
    + destruct (weeklyMean_bounded (first :: rest) key Hlen) as (r & -> & Hr).
      * intros p q Hp Hq.
        destruct (Hdays p (Hin p Hp)) as [_ Hbound].
        destruct (Hbound key _ Hkey Hq) as (q' & [= <-] & Hq').
        done.
      * by exists r.
    + apply Forall_forall. intros p Hp. by apply (Hdays p (Hin p Hp)).
Qed.

(** X15: from records whose visits and conversions are counts
    (integers from 0 to 2^53), for every selection of keys without "date",
    both time ranges, every line style and every zoom level and pan offset
    (NaN and the infinities included), the bounds of the value axis are
    finite numbers [min <= max], with [min] at least 0 (-5 in the 'smooth'
    style). *)
Theorem yAxisDomain_of_counts (chartData : ChartData)
    (selectedVariations : list string) (timeRange : TimeRange)
    (lineStyle : LineStyle) (zoom pan : num) :
  countsOnly chartData → "date" ∉ selectedVariations →
  let processedData := processData chartData selectedVariations timeRange in
  let window := visibleDataRange zoom pan (length processedData) in
  ∃ min max : Q,
    yAxisDomain processedData selectedVariations window lineStyle
    = (Fin min, Fin max)
    ∧ match lineStyle with smooth => -5 <= min | _ => 0 <= min end
    ∧ min <= max.
Proof.
  intros Hcounts Hdate processedData window.
  pose proof (processData_values_bounded chartData selectedVariations
                timeRange Hcounts Hdate) as Hbound.
  fold processedData in Hbound. rewrite Forall_forall in Hbound.
  assert (1e18 + 1 <= 1e308) as Hbig by (by apply Qle_bool_imp_le).
  unfold yAxisDomain.
  set (dataToUse := match window with
                    | Some (startIndex, endIndex) =>
                        Array_slice processedData startIndex
                                    (js_add endIndex (Fin 1))
                    | None => processedData
                    end).
  assert (∀ point, point ∈ dataToUse → point ∈ processedData) as Hsub.
  { unfold dataToUse. destruct window as [[startIndex endIndex]|]; [|done].
    intros point. apply elem_of_take_drop. }
  destruct (computeDomain_encloses dataToUse selectedVariations lineStyle)
    as (lo & hi & Hdomain & Hlo & Hord & _).
  { intros point key v Hpoint Hkey Hv.
    destruct (Hbound point (Hsub point Hpoint) key v Hkey Hv)
      as (q & -> & Hq0 & Hq1).
    exists q. split_and!; [done | done | lra]. }
  by exists lo, hi.
Qed.

(** X16: the day series holds 0 under a selected key other than
    "__proto__" (under which no number is stored) for which the record
    has no visits entry, or one that is 0 or NaN, whatever the conversions
    entry is. *)
Theorem processData_zero_without_visits (chartData : ChartData)
    (selectedVariations : list string) (i : nat) (dataPoint : DataPoint)
    (key : string) :
  data chartData !! i = Some dataPoint →
  key ∈ selectedVariations → key ≠ "__proto__" →
  (∀ x, visits dataPoint !! key = Some x → x = NaN ∨ val_is x 0) →
  ∃ point,
    processData chartData selectedVariations day !! i = Some point
    ∧ point !! key = Some (VNum (Fin 0)).
Proof.
  intros Hi Hkey Hproto Hvisits. unfold processData.
  rewrite list_lookup_fmap, Hi. eexists. split; [reflexivity|].
  rewrite dayPoint_lookup.
  rewrite (decide_True (P := key ∈ selectedVariations)) by done.
  rewrite (decide_False (P := key = "__proto__")) by done.
  unfold dayValue.
  assert (orZero (visits dataPoint !! key) = Fin 0) as ->.
  { destruct (visits dataPoint !! key) as [x|]; [|done].
    destruct (Hvisits x eq_refl) as [-> | (q & -> & Hq)]; [done|].
    cbn [orZero truthy]. by apply Qeq_bool_iff in Hq as ->. }
  unfold computeRate, calculateConversionRate.
  change (js_eq (Fin 0) (Fin 0)) with true. by vm_compute.
Qed.

End EndToEnd.

(** ** Panning *)

(** X17: a mouse move while panning (zoom level above 1, not dragging the
    thumb) keeps the zoom level and leaves a pan offset between 0 and
    [totalPoints - visiblePoints], so that the window that follows starts
    at the integer part of the offset and is not clamped. *)
Theorem pan_move_within_the_series (s : ChartState) (clientX : num)
    (track : option (num * num)) (totalPoints : nat)
    (clientWidth : option num) (z p : Q) :
  wellFormed (MouseMove clientX track totalPoints clientWidth) →
  pixel (panStart s) → isDraggingSlider s = false →
  zoomLevel s = Fin z → panOffset s = Fin p → 1 < z →
  let s' := handleGlobalMouseMove clientX track totalPoints clientWidth s in
  ∃ (visiblePoints : Z) (p' : Q),
    Math_floor (js_div (ofNat totalPoints) (Fin z))
    = Fin (inject_Z visiblePoints)
    ∧ zoomLevel s' = Fin z ∧ panOffset s' = Fin p' ∧ panStart s' = clientX
    ∧ 0 <= p' ∧ p' <= inject_Z (Z.of_nat totalPoints - visiblePoints)
    ∧ visibleDataRange (zoomLevel s') (panOffset s') totalPoints
      = Some (Fin (inject_Z (Qfloor p')),
              Fin (inject_Z (Qfloor p' + visiblePoints - 1))).
Proof.
  intros (Hx & _ & Hn & Hcw) Hstart Hds Hz Hp Hz1.
  destruct s as [zl po ip ds ps].
  cbn [zoomLevel panOffset panStart isDraggingSlider] in *. subst zl po ds.
  unfold handleGlobalMouseMove.
  cbn [isDraggingSlider panStart zoomLevel panOffset].
  destruct (js_sub_pixel ps clientX Hstart Hx) as (delta & ->).
  assert (js_gt (Fin z) (Fin 1) = true) as ->.
  { apply (js_lt_val (Fin 1) (Fin z) 1 z); [apply val_is_Fin.. | done]. }
  assert (∃ c, match clientWidth with
               | Some w => if truthy w then w else Fin 800
               | None => Fin 800
               end = Fin c ∧ 1 <= c) as (c & -> & Hc).
  { destruct clientWidth as [w|]; [|by exists 800].
    destruct Hcw as (k & -> & Hk). cbn [truthy].
    destruct (Qeq_bool (inject_Z k) 0) eqn:E; cbn [negb]; [by exists 800|].
    apply Qeq_bool_false in E. exists (inject_Z k). split; [done|].
    change 1 with (inject_Z 1). rewrite <- Zle_Qle.
    assert (k ≠ 0)%Z; [|lia]. intros ->. by apply E. }
  destruct (pan_move_offset totalPoints z p delta c Hn Hz1 Hc)
    as (v & p' & Hv & Hv0 & Hp' & Hp'0 & Hp'1).
  cbv zeta. rewrite Hp'.
  cbn [zoomLevel panOffset panStart setPanOffset setPanStart].
  exists v, p'. split_and!; try done.
  destruct (visibleDataRange_shape totalPoints z p' Hn Hz1)
    as (v' & s & Hv' & _ & _ & Hs & ->).
  assert (v' = v) as -> by (rewrite Hv in Hv'; by injection Hv').
  assert (s = Qfloor p') as ->; [|done].
  apply Qfloor_resp_le in Hp'0, Hp'1.
  change 0 with (inject_Z 0) in Hp'0. rewrite Qfloor_Z in Hp'0, Hp'1. lia.
Qed.

(** ** How the series compose *)

Section Composition.

Context {engine : Engine}.

Lemma aggregateByWeek_lookup_chunk (data : list ProcessedDataPoint) (j : nat) :
  aggregateByWeek data !! j =
    if decide (7 * j < length data)%nat
    then Some (pointOfWeek (take 7 (drop (7 * j) data)))
    else None.
Proof.
  rewrite aggregateByWeek_groups, list_lookup_fmap, weekGroupsFrom_lookup.
  change (0 + 7 * j)%nat with (7 * j)%nat. by case_decide.
Qed.

(** X18: records added at the end of the data leave the weeks that were
    complete as they were: with at least 7j + 7 records, the j-th weekly
    point is the same before and after. *)
Theorem completed_week_is_final (chartData : ChartData)
    (later : list DataPoint) (selectedVariations : list string) (j : nat) :
  (7 * j + 7 ≤ length (data chartData))%nat →
  let extended :=
    {| variations := variations chartData;
       data := data chartData ++ later |} in
  processData extended selectedVariations week !! j
  = processData chartData selectedVariations week !! j
  ∧ is_Some (processData chartData selectedVariations week !! j).
Proof.
  intros Hj extended. unfold processData. cbn [data extended].
  rewrite !aggregateByWeek_lookup_chunk, !length_map, length_app.
  rewrite !decide_True by lia. split; [|by eexists].
  do 2 f_equal. rewrite fmap_app, drop_app_le by (rewrite length_map; lia).
  apply take_app_le. rewrite length_drop, length_map. lia.
Qed.

Lemma dayPoint_key_set (keys keys' : list string) (dataPoint : DataPoint) :
  (∀ key, key ∈ keys ↔ key ∈ keys') →
  dayPoint keys dataPoint = dayPoint keys' dataPoint.
Proof.
  intros Hsame. apply map_eq. intros key. rewrite !dayPoint_lookup.
  destruct (decide (key ∈ keys)) as [Hin|Hnin].
  - by rewrite (decide_True (P := key ∈ keys')) by (by apply Hsame).
  - by rewrite (decide_False (P := key ∈ keys')) by (by rewrite <- Hsame).
Qed.

(** X19: the series depends on which keys are selected and not on their
    order nor on repetitions: two selections with the same keys give the
    same series. *)
Theorem processData_depends_on_key_set (chartData : ChartData)
    (selectedVariations selectedVariations' : list string)
    (timeRange : TimeRange) :
  (∀ key, key ∈ selectedVariations ↔ key ∈ selectedVariations') →
  processData chartData selectedVariations timeRange
  = processData chartData selectedVariations' timeRange.
Proof.
  intros Hsame. unfold processData.
  assert (map (dayPoint selectedVariations) (data chartData)
          = map (dayPoint selectedVariations') (data chartData)) as ->; [|done].
  apply map_ext. intros dataPoint. by apply dayPoint_key_set.
Qed.

Lemma weekValue_ext (week week' : list ProcessedDataPoint) (key : string) :
  map (λ point : ProcessedDataPoint, get point key) week
  = map (λ point : ProcessedDataPoint, get point key) week' →
  weekValue week key = weekValue week' key.
Proof. intros Heq. unfold weekValue. by rewrite Heq. Qed.

(** X20: the values of a line do not depend on the other lines shown:
    under a selected key other than "date", every point of the series holds
    what the point of the same index holds in the series of that key
    alone, and both series have the same length. *)
Theorem processData_lines_are_independent (chartData : ChartData)
    (selectedVariations : list string) (timeRange : TimeRange)
    (key : string) :
  key ∈ selectedVariations → key ≠ "date" →
  length (processData chartData [key] timeRange)
  = length (processData chartData selectedVariations timeRange)
  ∧ ∀ i point,
      processData chartData selectedVariations timeRange !! i = Some point →
      ∃ point',
        processData chartData [key] timeRange !! i = Some point'
        ∧ point' !! key = point !! key.
Proof.
  intros Hkey Hdate.
  assert (∀ dataPoint,
            get (dayPoint [key] dataPoint) key
            = get (dayPoint selectedVariations dataPoint) key) as Hget.
  { intros dataPoint. unfold get. rewrite !dayPoint_lookup.
    rewrite (decide_True (P := key ∈ [key]))
      by (by apply list_elem_of_singleton).
    by rewrite (decide_True (P := key ∈ selectedVariations)). }
  unfold processData. destruct timeRange.
  - split; [by rewrite !length_map|].
    intros i point Hi. rewrite list_lookup_fmap in Hi.
    rewrite list_lookup_fmap.
    destruct (data chartData !! i) as [dataPoint|]; [|done].
    injection Hi as <-. eexists. split; [reflexivity|].
    rewrite !dayPoint_lookup.
    rewrite (decide_True (P := key ∈ [key]))
      by (by apply list_elem_of_singleton).
    by rewrite (decide_True (P := key ∈ selectedVariations)).
  - split; [by rewrite !aggregateByWeek_length, !length_map|].
    intros i point Hi.
    rewrite aggregateByWeek_lookup_chunk, length_map in Hi.
    rewrite <- fmap_drop, <- fmap_take in Hi.
    rewrite aggregateByWeek_lookup_chunk, length_map.
    rewrite <- fmap_drop, <- fmap_take.
    destruct (decide (7 * i < length (data chartData))%nat) as [Hlt|]; [|done].
    destruct (take 7 (drop (7 * i) (data chartData)))
      as [|first rest] eqn:Hchunk.
    { apply (f_equal length) in Hchunk.
      rewrite length_take, length_drop in Hchunk. cbn [length] in Hchunk. lia. }
    injection Hi as <-. eexists. split; [reflexivity|].
    unfold pointOfWeek. rewrite !fmap_cons. cbn [head default].
    rewrite !weekPoint_lookup.
    rewrite !(decide_False (P := key = "date")) by done.
    rewrite !dayPoint_lookup.
    rewrite (decide_True (P := key ∈ [key]))
      by (by apply list_elem_of_singleton).
    rewrite (decide_True (P := key ∈ selectedVariations)) by done.
    destruct (decide (key = "__proto__")) as [->|Hproto]; [done|].
    rewrite !decide_True by (by eexists). do 2 f_equal.
    apply weekValue_ext.
    rewrite <- !fmap_cons.
    change (@fmap list _ _ _) with (@map DataPoint ProcessedDataPoint).
    rewrite !map_map. apply map_ext. intros dataPoint. apply Hget.
Qed.

End Composition.

(** * Examples *)

Section Examples.

Local Existing Instance exampleEngine.


(** The scenario of the specification: 50 conversions for 200 visits are
    stored as 25. *)
Example processData_scenario :
  processData oneDay ["1"] day = [ pointOf "2024-01-01" 25 ].
Proof. by vm_compute. Qed.

(** The weekly aggregation of ten days. *)
Example processData_ten_days_by_week :
  processData tenDays ["1"] week
  = [ pointOf "2024-01-01 - 2024-01-07" 4;
      pointOf "2024-01-08 - 2024-01-10" 9 ].
Proof. by vm_compute. Qed.

(** A window of 50 points out of 100 at zoom level 2, at the start of the
    series and panned past its end. *)
Example visibleDataRange_half :
  visibleDataRange (Fin 2) (Fin 0) 100 = Some (Fin 0, Fin 49)
  ∧ visibleDataRange (Fin 2) (Fin 1000) 100 = Some (Fin 50, Fin 99).
Proof. split; by vm_compute. Qed.

(** The domain of the visible values 10, 20 and 30, per line style. *)
Example computeDomain_10_20_30 :
  let points := [pointOf "2024-01-01" 10; pointOf "2024-01-02" 20;
                 pointOf "2024-01-03" 30] in
  computeDomain points ["1"] line = (Fin 8, Fin 32)
  ∧ computeDomain points ["1"] area = (Fin 8, Fin 32)
  ∧ computeDomain points ["1"] smooth = (Fin 3, Fin 34).
Proof. repeat split; by vm_compute. Qed.

Lemma processData_day_keeps_dates_witness :
  length (processData tenDays ["1"] day) = length (data tenDays)
  ∧ ∀ i dataPoint,
      data tenDays !! i = Some dataPoint →
      ∃ point,
        processData tenDays ["1"] day !! i = Some point
        ∧ point !! "date" = Some (VStr (date dataPoint)).
Proof.
  apply (processData_day_keeps_dates tenDays ["1"]).
  apply not_elem_of_cons. split; [done | apply not_elem_of_nil].
Defined.

(** C5 as stated fails for the key "date": its rate overwrites the date
    of the point. *)
Lemma processData_date_key_overwrites_date :
  processData oneDay ["date"] day = [ {[ "date" := VNum (Fin 0) ]} ]
  ∧ ¬ ∃ point,
        processData oneDay ["date"] day !! 0%nat = Some point
        ∧ point !! "date" = Some (VStr "2024-01-01").
Proof.
  split; [apply processData_oneDay_date_key|].
  rewrite processData_oneDay_date_key. intros (point & [= <-] & Hdate).
  by rewrite lookup_singleton_eq in Hdate.
Qed.

(** C2 as stated fails for an empty key set over a non-empty series: the
    day is still there, with its date and nothing else. *)
Lemma processData_no_key_one_day :
  ([] = @nil string ∨ data oneDay = [])
  ∧ processData oneDay [] day = [ {[ "date" := VStr "2024-01-01" ]} ]
  ∧ processData oneDay [] day ≠ [].
Proof.
  split; [by left|]. split; [apply processData_oneDay_no_key|].
  by rewrite processData_oneDay_no_key.
Qed.

Lemma processData_week_chunks_witness :
  ∃ week1 week2,
    processData tenDays ["1"] week = [week1; week2]
    ∧ week2 !! "date" = Some (VStr "2024-01-08 - 2024-01-10").
Proof.
  destruct (processData_week_chunks tenDays ["1"]) as (_ & _ & Hten).
  destruct (Hten eq_refl)
    as (week1 & week2 & day8 & day10 & Hweeks & _ & _ & _ & Hlabel).
  exists week1, week2. split; [exact Hweeks|].
  assert ("date" ∉ ["1"]) as Hdate.
  { apply not_elem_of_cons. split; [done | apply not_elem_of_nil]. }
  apply (Hlabel Hdate (record "2024-01-08" "1" 16 200)
           (record "2024-01-10" "1" 20 200));
    reflexivity.
Defined.



Lemma computeDomain_finite_and_ordered_witness :
  ∃ min max : Q,
    computeDomain
      [pointOf "2024-01-01" 10; pointOf "2024-01-02" 20;
       pointOf "2024-01-03" 30] ["1"] line
    = (Fin min, Fin max)
    ∧ min <= max.
Proof.
  apply computeDomain_finite_and_ordered.
  intros point key v Hpoint Hkey Hv.
  apply list_elem_of_singleton in Hkey as ->.
  assert (10 <= 1e308 ∧ 20 <= 1e308 ∧ 30 <= 1e308) as (H10 & H20 & H30)
    by (by repeat split; apply Qle_bool_imp_le).
  repeat (apply elem_of_cons in Hpoint as [->|Hpoint]);
    [..| by apply elem_of_nil in Hpoint].
  all: unfold pointOf in Hv.
  all: rewrite lookup_insert_ne, lookup_singleton_eq in Hv by done.
  all: injection Hv as <-; eexists; split; [reflexivity|]; by split.
Defined.

(** C8: the code does not keep the bounds finite.  For the visible values
    0 and 1.7 * 10^308 in the 'line' style the padded upper bound
    overflows; the guard that is there for a non-finite upper bound
    replaces it by [Math.max(max * 1.2, 100)], which overflows as well, and
    the domain returned is (0, Infinity): no pair of finite numbers. *)
Lemma computeDomain_overflow_is_infinite :
  computeDomain [pointOf "2024-01-01" 0; pointOf "2024-01-02" 17e307]
    ["1"] line
  = (Fin 0, PInf)
  ∧ ¬ ∃ min max : Q,
        computeDomain [pointOf "2024-01-01" 0; pointOf "2024-01-02" 17e307]
          ["1"] line
        = (Fin min, Fin max)
        ∧ min <= max.
Proof.
  split; [apply computeDomain_huge_value|].
  rewrite computeDomain_huge_value. by intros (min & max & [=] & _).
Qed.

Lemma computeDomain_default_without_finite_value_witness :
  computeDomain [ {[ "date" := VStr "2024-01-01" ]} ] ["1"] smooth
  = (Fin 0, Fin 100).
Proof.
  apply computeDomain_default_without_finite_value.
  intros point key Hpoint Hkey.
  apply list_elem_of_singleton in Hpoint as ->.
  apply list_elem_of_singleton in Hkey as ->.
  reflexivity.
Defined.

(** ** The examples of the further properties *)

Lemma pixel_small (q : Q) : Qle_bool (Qabs q) 1e300 = true → pixel (Fin q).
Proof. intros H. exists q. split; [done|]. by apply Qle_bool_imp_le. Qed.

Lemma record_counts (day key : string) (c v : Z) (x : num) :
  (0 ≤ c ≤ 2 ^ 53)%Z → (0 ≤ v ≤ 2 ^ 53)%Z →
  (∃ k, visits (record day key (inject_Z c) (inject_Z v)) !! k = Some x
        ∨ conversions (record day key (inject_Z c) (inject_Z v)) !! k
          = Some x) →
  countValue x.
Proof.
  intros Hc Hv (k & [H | H]); cbn in H;
    apply lookup_singleton_Some in H as [_ <-]; by eexists.
Qed.

Lemma tenDays_counts : countsOnly tenDays.
Proof.
  intros dataPoint key x Hin Hx.
  repeat (apply elem_of_cons in Hin as [->|Hin]);
    [..| by apply elem_of_nil in Hin].
  all: eapply (record_counts _ _ _ 200); [| | by exists key]; lia.
Qed.

Lemma tenDays_dated : datedRecords tenDays.
Proof.
  intros dataPoint Hin.
  repeat (apply elem_of_cons in Hin as [->|Hin]);
    [..| by apply elem_of_nil in Hin].
  all: done.
Qed.

Lemma date_not_selected : "date" ∉ ["1"].
Proof. by intros ?%list_elem_of_singleton. Qed.

Lemma zoom_and_pan_stay_in_range_witness :
  ∃ z p : Q,
    let events :=
      [ZoomIn; ZoomIn; ChartMouseDown (Fin 300) false;
       MouseMove (Fin 100) None 100 (Some (Fin 800)); MouseUp; ZoomOut] in
    zoomLevel (foldl handleEvent initialState events) = Fin z
    ∧ panOffset (foldl handleEvent initialState events) = Fin p
    ∧ 1 <= z ∧ z <= 5 ∧ 0 <= p ∧ (z == 1 → p == 0).
Proof.
  apply (zoom_and_pan_stay_in_range
           [ZoomIn; ZoomIn; ChartMouseDown (Fin 300) false;
            MouseMove (Fin 100) None 100 (Some (Fin 800)); MouseUp; ZoomOut]).
  repeat apply Forall_cons_2; try apply Forall_nil_2; cbn [wellFormed];
    try exact I.
  - by apply pixel_small.
  - split_and!; [by apply pixel_small | exact I | lia |].
    exists 800%Z. split; [reflexivity | lia].
Defined.

Lemma visibleDataRange_shows_visiblePoints_witness :
  ∃ visiblePoints startIndex endIndex : Z,
    Math_floor (js_div (ofNat 100) (Fin 3)) = Fin (inject_Z visiblePoints)
    ∧ visibleDataRange (Fin 3) (Fin 10) 100
      = Some (Fin (inject_Z startIndex), Fin (inject_Z endIndex))
    ∧ (endIndex - startIndex + 1 = visiblePoints)%Z
    ∧ (0 ≤ startIndex)%Z ∧ (endIndex ≤ Z.of_nat 100 - 1)%Z.
Proof.
  apply (visibleDataRange_shows_visiblePoints 100 3 10); [lia | done].
Defined.

Lemma visibleDataRange_pan_regimes_witness :
  ∃ visiblePoints startIndex endIndex : Z,
    Math_floor (js_div (ofNat 100) (Fin 3)) = Fin (inject_Z visiblePoints)
    ∧ visibleDataRange (Fin 3) (Fin 1000) 100
      = Some (Fin (inject_Z startIndex), Fin (inject_Z endIndex))
    ∧ (1000 <= 0 → startIndex = 0%Z)
    ∧ (0 <= 1000 →
       1000 <= inject_Z (Z.of_nat 100 - visiblePoints) →
       startIndex = Qfloor 1000)
    ∧ (inject_Z (Z.of_nat 100 - visiblePoints) <= 1000 →
       startIndex = (Z.of_nat 100 - visiblePoints)%Z
       ∧ endIndex = (Z.of_nat 100 - 1)%Z).
Proof.
  apply (visibleDataRange_pan_regimes 100 3 1000); [lia | done].
Defined.

Lemma visibleDataRange_monotone_in_pan_witness :
  ∃ startIndex endIndex startIndex' endIndex' : Z,
    visibleDataRange (Fin 3) (Fin 10) 100
    = Some (Fin (inject_Z startIndex), Fin (inject_Z endIndex))
    ∧ visibleDataRange (Fin 3) (Fin 20) 100
      = Some (Fin (inject_Z startIndex'), Fin (inject_Z endIndex'))
    ∧ (startIndex ≤ startIndex')%Z ∧ (endIndex ≤ endIndex')%Z.
Proof.
  apply (visibleDataRange_monotone_in_pan 100 3 10 20); [lia | done | done].
Defined.

Lemma displayData_is_the_visible_window_witness :
  let processedData := processData tenDays ["1"] day in
  displayData processedData None ["1"] = processedData
  ∧ ∀ zoomLevel panOffset : Q,
      (Z.of_nat (length processedData) < 2 ^ 32)%Z → 1 < zoomLevel →
      let window :=
        visibleDataRange (Fin zoomLevel) (Fin panOffset)
                         (length processedData) in
      ∃ visiblePoints startIndex : Z,
        Math_floor (js_div (ofNat (length processedData)) (Fin zoomLevel))
        = Fin (inject_Z visiblePoints)
        ∧ window = Some (Fin (inject_Z startIndex),
                         Fin (inject_Z (startIndex + visiblePoints - 1)))
        ∧ displayData processedData window ["1"]
          = take (Z.to_nat visiblePoints)
                 (drop (Z.to_nat startIndex) processedData)
        ∧ length (displayData processedData window ["1"])
          = Z.to_nat visiblePoints
        ∧ ∀ lineStyle,
            yAxisDomain processedData ["1"] window lineStyle
            = computeDomain (displayData processedData window ["1"])
                            ["1"] lineStyle.
Proof.
  apply (displayData_is_the_visible_window tenDays ["1"] day);
    [apply tenDays_dated | apply date_not_selected].
Defined.

Lemma zoom_beyond_series_shows_nothing_witness :
  displayData [pointOf "2024-01-01" 10; pointOf "2024-01-02" 20]
              (visibleDataRange (Fin 3) (Fin 0) 2) ["1"] = []
  ∧ yAxisDomain [pointOf "2024-01-01" 10; pointOf "2024-01-02" 20] ["1"]
                (visibleDataRange (Fin 3) (Fin 0) 2) line
    = (Fin 0, Fin 100).
Proof.
  apply (zoom_beyond_series_shows_nothing
           [pointOf "2024-01-01" 10; pointOf "2024-01-02" 20] ["1"] line 3 0);
    [cbn; lia | done | done].
Defined.

Lemma CustomTooltip_stars_the_largest_witness :
  ∃ stars,
    CustomTooltip true (Some (map Fin [10; 20; 20])) = Some stars
    ∧ length stars = length [10; 20; 20]
    ∧ (∀ i q, [10; 20; 20] !! i = Some q →
         (stars !! i = Some true
          ↔ 0 < q ∧ Forall (λ q', q' <= q) [10; 20; 20]))
    ∧ (Exists (λ q, 0 < q) [10; 20; 20] → true ∈ stars).
Proof.
  apply (CustomTooltip_stars_the_largest [10; 20; 20]). done.
Defined.

Lemma getVariationKey_integer_ids_witness :
  let key := getVariationKey {| id := Some (Fin (inject_Z 7)); name := "A" |} in
  key = pretty 7%Z
  ∧ key ≠ "date" ∧ key ≠ "all"
  ∧ (key = "0" ↔ 7%Z = 0%Z)
  ∧ ∀ (b : Z) (name2 : string),
      (- 2 ^ 53 ≤ b ≤ 2 ^ 53)%Z →
      getVariationKey {| id := Some (Fin (inject_Z b)); name := name2 |} = key →
      b = 7%Z.
Proof.
  apply (getVariationKey_integer_ids 7 "A"). lia.
Defined.

Lemma variationSelect_round_trip_witness :
  (length (variations twoVariations) ≠ 1%nat →
   variationSelectValue twoVariations (variationSelectChange twoVariations "2")
   = "2")
  ∧ (length (variations twoVariations) = 1%nat →
     variationSelectValue twoVariations
       (variationSelectChange twoVariations "2") = "all").
Proof.
  apply (variationSelect_round_trip twoVariations "2").
  right. exists {| id := Some (Fin 2); name := "B" |}.
  split; [by right; left | reflexivity].
Defined.

Lemma selected_keys_have_variations_witness :
  let selectedVariations :=
    foldl (λ _ value, variationSelectChange twoVariations value)
          (map getVariationKey (variations twoVariations))
          ["1"; "all"; "2"] in
  (variations twoVariations ≠ [] → selectedVariations ≠ [])
  ∧ Forall (λ key, ∃ v, variationOfKey twoVariations key = Some v
                        ∧ getVariationKey v = key)
           selectedVariations.
Proof.
  apply (selected_keys_have_variations twoVariations ["1"; "all"; "2"]).
  repeat apply Forall_cons_2; try apply Forall_nil_2.
  - right. exists {| id := Some (Fin 1); name := "A" |}.
    split; [by left | reflexivity].
  - by left.
  - right. exists {| id := Some (Fin 2); name := "B" |}.
    split; [by right; left | reflexivity].
Defined.

Lemma week_of_one_day_is_that_day_witness :
  ∃ point,
    processData oneDay ["1"] day !! (7 * 0)%nat = Some point
    ∧ processData oneDay ["1"] week !! 0%nat = Some point.
Proof.
  apply (week_of_one_day_is_that_day oneDay ["1"] 0);
    [apply date_not_selected | reflexivity].
Defined.

Lemma computeDomain_covers_values_witness :
  ∃ min max : Q,
    computeDomain [pointOf "2024-01-01" 10; pointOf "2024-01-02" 30]
                  ["1"] smooth
    = (Fin min, Fin max)
    ∧ -5 <= min
    ∧ ∀ point key q,
        point ∈ [pointOf "2024-01-01" 10; pointOf "2024-01-02" 30] →
        key ∈ ["1"] →
        point !! key = Some (VNum (Fin q)) →
        min <= q ∧ q <= max.
Proof.
  apply (computeDomain_covers_values
           [pointOf "2024-01-01" 10; pointOf "2024-01-02" 30] ["1"] smooth).
  intros point key v Hpoint Hkey Hv.
  apply list_elem_of_singleton in Hkey as ->.
  assert (10 <= 1e308 ∧ 30 <= 1e308) as (H10 & H30)
    by (by split; apply Qle_bool_imp_le).
  repeat (apply elem_of_cons in Hpoint as [->|Hpoint]);
    [..| by apply elem_of_nil in Hpoint].
  all: unfold pointOf in Hv.
  all: rewrite lookup_insert_ne, lookup_singleton_eq in Hv by done.
  all: injection Hv as <-; eexists; split; [reflexivity|]; by split.
Defined.

Lemma yAxisDomain_of_counts_witness :
  let processedData := processData tenDays ["1"] week in
  let window := visibleDataRange (Fin 2) NaN (length processedData) in
  ∃ min max : Q,
    yAxisDomain processedData ["1"] window area = (Fin min, Fin max)
    ∧ 0 <= min
    ∧ min <= max.
Proof.
  apply (yAxisDomain_of_counts tenDays ["1"] week area (Fin 2) NaN);
    [apply tenDays_counts | apply date_not_selected].
Defined.

Lemma processData_zero_without_visits_witness :
  ∃ point,
    processData oneDay ["1"; "2"] day !! 0%nat = Some point
    ∧ point !! "2" = Some (VNum (Fin 0)).
Proof.
  apply (processData_zero_without_visits oneDay ["1"; "2"] 0
           (record "2024-01-01" "1" 50 200) "2").
  - reflexivity.
  - by right; left.
  - done.
  - intros x Hx. cbn in Hx. by rewrite lookup_singleton_ne in Hx.
Defined.

Lemma pan_move_within_the_series_witness :
  let s' := handleGlobalMouseMove (Fin 100) None 100 (Some (Fin 800)) panning in
  ∃ (visiblePoints : Z) (p' : Q),
    Math_floor (js_div (ofNat 100) (Fin 2)) = Fin (inject_Z visiblePoints)
    ∧ zoomLevel s' = Fin 2 ∧ panOffset s' = Fin p' ∧ panStart s' = Fin 100
    ∧ 0 <= p' ∧ p' <= inject_Z (Z.of_nat 100 - visiblePoints)
    ∧ visibleDataRange (zoomLevel s') (panOffset s') 100
      = Some (Fin (inject_Z (Qfloor p')),
              Fin (inject_Z (Qfloor p' + visiblePoints - 1))).
Proof.
  apply (pan_move_within_the_series panning (Fin 100) None 100
           (Some (Fin 800)) 2 10); try done.
  - split_and!; [by apply pixel_small | exact I | lia |].
    exists 800%Z. split; [reflexivity | lia].
  - by apply pixel_small.
Defined.

Lemma completed_week_is_final_witness :
  let extended :=
    {| variations := variations tenDays;
       data := data tenDays ++ [record "2024-01-11" "1" 22 200] |} in
  processData extended ["1"] week !! 0%nat
  = processData tenDays ["1"] week !! 0%nat
  ∧ is_Some (processData tenDays ["1"] week !! 0%nat).
Proof.
  apply (completed_week_is_final tenDays [record "2024-01-11" "1" 22 200]
           ["1"] 0).
  cbn. lia.
Defined.

Lemma processData_depends_on_key_set_witness :
  processData tenDays ["1"; "2"; "1"] week
  = processData tenDays ["2"; "1"] week.
Proof.
  apply (processData_depends_on_key_set tenDays
           ["1"; "2"; "1"] ["2"; "1"] week).
  intros key. rewrite !elem_of_cons. rewrite elem_of_nil. tauto.
Defined.

Lemma processData_lines_are_independent_witness :
  length (processData tenDays ["1"] week)
  = length (processData tenDays ["1"; "2"] week)
  ∧ ∀ i point,
      processData tenDays ["1"; "2"] week !! i = Some point →
      ∃ point',
        processData tenDays ["1"] week !! i = Some point'
        ∧ point' !! "1" = point !! "1".
Proof.
  apply (processData_lines_are_independent tenDays ["1"; "2"] week "1");
    [by left | done].
Defined.

End Examples.

(** * The overflows and the ties on binary64 numbers

    The model lets a finite result overflow where its exact value exceeds
    [Number.MAX_VALUE].  The overflows used above are evaluated here on
    the primitive binary64 numbers themselves: the rate of 10^307
    conversions for one visit, the upper bound of the axis for the values
    0 and 1.7 * 10^308 with its fallback, and the sum of a week of two days
    at 10^308.  So are two quotients that the exact rationals of the model
    put on a tie of the second decimal and binary64 just below it. *)

Section Binary64.

Local Open Scope float_scope.

#[warnings="-inexact-float"]
Example binary64_rate_overflows : 1e307 / 1 * 100 = infinity.
Proof. reflexivity. Qed.

#[warnings="-inexact-float"]
Example binary64_padding_overflows :
  1.7e308 + (1.7e308 - 0) * 0.1 = infinity ∧ 1.7e308 * 1.2 = infinity.
Proof. split; reflexivity. Qed.

#[warnings="-inexact-float"]
Example binary64_week_sum_overflows : 0 + 1e308 + 1e308 = infinity.
Proof. reflexivity. Qed.

(** A rate and a weekly mean that fall just below a tie of the second
    decimal, and so are stored as 14.37 and 1: within the bounds of C3 and
    C7, and not the exact quotients 14.375 and 1.005 rounded.  The mean of
    1 and 1.01 is the number 4526117625507348 / 2^52, below 1005 / 1000. *)
#[warnings="-inexact-float"]
Example binary64_below_the_tie :
  (23 / 160 * 100 <? 14.375) = true
  ∧ Prim2SF ((0 + 1 + 1.01) / 2)
    = S754_finite false 4526117625507348%positive (-52)%Z
  ∧ (4526117625507348 * 1000 <? 1005 * 2 ^ 52)%Z = true.
Proof. repeat split; reflexivity. Qed.

End Binary64.
